(** * SAM 2 segmentation service: a shallow embedding and its properties

    The development follows the two modules of the Python backend:
    [sam2_service/sam2_predictor.py] (class [SAM2Predictor]) and
    [sam2_service/main.py] (the FastAPI handlers).

    Conventions.
    - A mask is a two-dimensional numpy array of booleans, embedded as the
      list of its rows.
    - Python floats that carry scores are embedded as rationals.  Every
      finite double is a rational and the comparisons the code performs on
      scores ([sorted], [>]) agree with the rational order.  The quotient
      [float(intersection) / float(union)] is compared against [0.6]; for
      pixel counts below [2^50] the rounded quotient lies above the double
      nearest to [0.6] exactly when the exact quotient lies above [3/5], so
      the embedding keeps the exact quotient.
    - Python exceptions are values of type [exn]; a computation that may
      raise returns [result A].
    - The segmentation model, the image library and the JSON parser are
      collaborators outside the repository; they enter as the fields of
      [Collaborators]. *)

From Stdlib Require Import String Ascii DecimalString.
From Stdlib Require Import NArith ZArith QArith Lqa Lia List Bool.
From Stdlib Require Import Permutation Sorted PeanoNat.
Import ListNotations.

Set Implicit Arguments.
Set Warnings "-register-all".

Local Open Scope Q_scope.

(* ===================================================================== *)
(** * numpy boolean arrays                                                 *)
(* ===================================================================== *)

Module Np.

(** A 2-D array, row major. *)
Definition ndarray := list (list bool).

(** [a.shape], as the list of row lengths (one entry per row). *)
Definition row_lengths (a : ndarray) : list nat := map (@length bool) a.

Definition same_shape (a b : ndarray) : bool :=
  if list_eq_dec Nat.eq_dec (row_lengths a) (row_lengths b) then true else false.

Fixpoint zip_with {A B C} (f : A -> B -> C) (xs : list A) (ys : list B) : list C :=
  match xs, ys with
  | x :: xs', y :: ys' => f x y :: zip_with f xs' ys'
  | _, _ => []
  end.

(** [np.logical_and], [np.logical_or]: element by element. *)
Definition logical_and (a b : ndarray) : ndarray := zip_with (zip_with andb) a b.
Definition logical_or (a b : ndarray) : ndarray := zip_with (zip_with orb) a b.

(** [a.sum()] / [np.sum(a)] on a boolean array: the number of [True]. *)
Definition row_sum (r : list bool) : nat := length (filter (fun b => b) r).
Definition sum (a : ndarray) : nat := fold_right (fun r acc => row_sum r + acc)%nat 0%nat a.

End Np.

(* ===================================================================== *)
(** * sam2_predictor.py                                                    *)
(* ===================================================================== *)

(** One entry of the list returned by [SAM2AutomaticMaskGenerator.generate]:
    a dictionary of which the code reads the keys ['segmentation'] and
    ['predicted_iou']. *)
Record MaskData := mkMaskData {
  segmentation : Np.ndarray;
  predicted_iou : Q
}.

(** ** Python's [sorted(xs, key=key, reverse=True)]

    The built-in sort is stable, also under [reverse=True]: elements with
    equal keys keep their input order.  The embedding is the stable
    insertion sort on descending keys; [py_sorted_unique] below shows that
    the three properties (same elements, descending, stable) determine the
    result, so nothing depends on the sorting algorithm chosen. *)
Section PySorted.
Context {A : Type} (key : A -> Q).

Fixpoint insert_desc (x : A) (l : list A) : list A :=
  match l with
  | [] => [x]
  | y :: l' =>
      if Qle_bool (key y) (key x) then x :: y :: l'
      else y :: insert_desc x l'
  end.

Definition py_sorted_reverse (l : list A) : list A :=
  fold_right insert_desc [] l.

(** [descending a b]: [a] may stand before [b] in the sorted list. *)
Definition descending (a b : A) : Prop := key b <= key a.

End PySorted.

Definition overlap_threshold : Q := 6 # 10.
Definition max_masks : nat := 25.

(** [SAM2Predictor._calculate_mask_iou], for the masks of one [generate]
    call, which all have the shape of the image.  On arrays whose shapes
    cannot be combined [np.logical_and] raises and the [except] branch
    returns [0.0], which is the last branch here.  Shapes that differ and
    that numpy would broadcast (a single row or column against a full
    array) are not modelled: where a property below speaks of pixel
    counts, it is stated for masks of one shape. *)
Definition _calculate_mask_iou (mask1 mask2 : Np.ndarray) : Q :=
  if Np.same_shape mask1 mask2 then
    let intersection := Np.sum (Np.logical_and mask1 mask2) in
    let union := Np.sum (Np.logical_or mask1 mask2) in
    if Nat.eqb union 0 then 0
    else Z.of_nat intersection # Pos.of_nat union
  else 0.

(** The inner [for selected_mask in filtered_masks] loop with its [break]. *)
Fixpoint is_overlapping (current_segmentation : Np.ndarray)
    (filtered_masks : list MaskData) : bool :=
  match filtered_masks with
  | [] => false
  | selected_mask :: rest =>
      let iou := _calculate_mask_iou current_segmentation (segmentation selected_mask) in
      if negb (Qle_bool iou overlap_threshold) then true
      else is_overlapping current_segmentation rest
  end.

(** The outer [for current_mask in sorted_masks] loop; the accumulator is
    [filtered_masks], extended with [append]. *)
Fixpoint filter_loop (sorted_masks filtered_masks : list MaskData) : list MaskData :=
  match sorted_masks with
  | [] => filtered_masks
  | current_mask :: rest =>
      if is_overlapping (segmentation current_mask) filtered_masks
      then filter_loop rest filtered_masks
      else filter_loop rest (filtered_masks ++ [current_mask])
  end.

(** [SAM2Predictor._filter_overlapping_masks]. *)
Definition _filter_overlapping_masks (masks : list MaskData) : list MaskData :=
  if (length masks <=? 1)%nat then masks
  else
    let sorted_masks := py_sorted_reverse predicted_iou masks in
    filter_loop sorted_masks [].

(** The value returned by the [segment_*] methods:
    [{'masks': ..., 'scores': ...}]. *)
Record SegResult := mkSegResult {
  masks : list Np.ndarray;
  scores : list Q
}.

(** The part of [segment_everything] that follows [mask_generator.generate]:
    filter, sort again, keep the first [max_masks], split into two lists. *)
Definition everything_postprocess (raw : list MaskData) : SegResult :=
  let filtered_masks := _filter_overlapping_masks raw in
  let filtered_masks := py_sorted_reverse predicted_iou filtered_masks in
  let filtered_masks := firstn max_masks filtered_masks in
  {| masks := map segmentation filtered_masks;
     scores := map predicted_iou filtered_masks |}.

(* ===================================================================== *)
(** * Python values, exceptions and the effect monad                       *)
(* ===================================================================== *)

Local Open Scope string_scope.
Local Open Scope list_scope.

(** Exceptions the code raises or lets through. *)
Inductive exn :=
| HTTPException (status_code : Z) (detail : string)
| RuntimeError (msg : string)
| ValueError (msg : string)
| ImportError (msg : string)
| TypeError (msg : string)
| OtherError (msg : string).

Inductive result (A : Type) :=
| Return (a : A)
| Raise (e : exn).
Arguments Return {A} a.
Arguments Raise {A} e.

(** What [json.loads] can produce. *)
Inductive json :=
| JNull
| JBool (b : bool)
| JNum (n : Z)
| JFloat (x : Q)
| JStr (s : string)
| JList (l : list json)
| JObj (l : list (string * json)).

(** Python truthiness of a parsed value ([if x], [a and x]). *)
Definition truthy (v : json) : bool :=
  match v with
  | JNull => false
  | JBool b => b
  | JNum n => negb (Z.eqb n 0)
  | JFloat x => negb (Qeq_bool x 0)
  | JStr s => negb (String.eqb s "")
  | JList l => match l with [] => false | _ => true end
  | JObj l => match l with [] => false | _ => true end
  end.

(** Truthiness of an [Optional] value: [None] is false. *)
Definition truthy_opt (v : option json) : bool :=
  match v with None => false | Some v => truthy v end.

Fixpoint chars (s : string) : list json :=
  match s with
  | EmptyString => []
  | String c s' => JStr (String c EmptyString) :: chars s'
  end.

(** [for x in v]: the elements a loop over [v] visits. *)
Definition py_iter (v : json) : result (list json) :=
  match v with
  | JList l => Return l
  | JStr s => Return (chars s)
  | JObj l => Return (map (fun kv => JStr (fst kv)) l)
  | _ => Raise (TypeError "object is not iterable")
  end.

(** [len(v)]. *)
Definition py_len (v : json) : result nat :=
  match v with
  | JList l => Return (List.length l)
  | JStr s => Return (String.length s)
  | JObj l => Return (List.length l)
  | _ => Raise (TypeError "object has no len()")
  end.

(** A decoded image: rows of RGB pixels. *)
Definition image := list (list (Z * Z * Z)).

Definition image_shape (img : image) : nat * nat :=
  (List.length img, match img with [] => 0%nat | r :: _ => List.length r end).

Definition bytes := list Byte.byte.

(** The keyword arguments of [SAM2ImagePredictor.predict]. *)
Record PredictArgs := mkPredictArgs {
  point_coords : option json;
  point_labels : option (list Z);
  box : option json;
  multimask_output : bool
}.

(** Calls into the segmentation model, in the order they are made. *)
Inductive event :=
| EvGenerate (img : image)
| EvSetImage (img : image)
| EvPredict (args : PredictArgs).

(** The collaborators: what they answer is not decided by the repository. *)
Record Collaborators := mkCollaborators {
  (** PIL: [Image.open], [convert('RGB')], [np.array] *)
  image_open : bytes -> result image;
  (** PIL: [Image.fromarray(a, mode='L').save(buffer, format='PNG')] *)
  png_save : list (list Z) -> result bytes;
  json_loads : string -> result json;
  (** [requests.get(url, timeout=30)] with [raise_for_status] *)
  requests_get : string -> result bytes;
  (** [SAM2AutomaticMaskGenerator(...).generate(image)] *)
  sam2_generate : image -> result (list MaskData);
  sam2_set_image : image -> result unit;
  (** [np.array] of the prompt, then [predict] on the image last set;
      the masks and [scores.tolist()] *)
  sam2_predict : image -> PredictArgs -> result (list Np.ndarray * list Q);
  (** [str(e)] for a Starlette [HTTPException] *)
  http_exception_str : Z -> string -> string
}.

(** [str(e)]. *)
Definition str (c : Collaborators) (e : exn) : string :=
  match e with
  | HTTPException code detail => http_exception_str c code detail
  | RuntimeError m | ValueError m | ImportError m | TypeError m | OtherError m => m
  end.

(** Code that calls the model: the list of calls made so far is threaded
    through, and an exception leaves it as it stood when raised. *)
Definition M (A : Type) : Type := list event -> result A * list event.

Definition ret {A} (a : A) : M A := fun t => (Return a, t).
Definition raise {A} (e : exn) : M A := fun t => (Raise e, t).
Definition bind {A B} (m : M A) (k : A -> M B) : M B :=
  fun t => match m t with
           | (Return a, t') => k a t'
           | (Raise e, t') => (Raise e, t')
           end.
(** A computation that makes no model call. *)
Definition lift {A} (r : result A) : M A := fun t => (r, t).
(** One model call: recorded, then answered by the collaborator. *)
Definition call {A} (ev : event) (r : result A) : M A := fun t => (r, t ++ [ev]).
(** [try: m except Exception as e: h e]. *)
Definition try_except {A} (m : M A) (h : exn -> M A) : M A :=
  fun t => match m t with
           | (Return a, t') => (Return a, t')
           | (Raise e, t') => h e t'
           end.

Declare Scope py_scope.
Delimit Scope py_scope with py.
Notation "x <- m ;; k" := (bind m (fun x => k))
  (at level 61, m at next level, right associativity) : py_scope.
Notation "m ;;; k" := (bind m (fun _ => k))
  (at level 61, right associativity) : py_scope.
Local Open Scope py_scope.

(* ===================================================================== *)
(** * class SAM2Predictor                                                  *)
(* ===================================================================== *)

Inductive sam2_model := Sam2Model (config_file ckpt_path device : string).
Inductive image_predictor := SAM2ImagePredictor (m : sam2_model).

Record SAM2Predictor := mkSAM2Predictor {
  model_size : string;
  device : string;
  model : option sam2_model;
  predictor : option image_predictor
}.

Section Predictor.
Context (c : Collaborators).

(** [SAM2Predictor.segment_everything]; the outer [except] logs and
    re-raises. *)
Definition segment_everything (self : SAM2Predictor) (img : image) : M SegResult :=
  match predictor self with
  | None => raise (RuntimeError "Model not loaded")
  | Some _ =>
      raw <- call (EvGenerate img) (sam2_generate c img) ;;
      ret (everything_postprocess raw)
  end.

(** [SAM2Predictor.segment_with_points]. *)
Definition segment_with_points (self : SAM2Predictor) (img : image) (points : json)
  : M SegResult :=
  match predictor self with
  | None => raise (RuntimeError "Model not loaded")
  | Some _ =>
      call (EvSetImage img) (sam2_set_image c img) ;;;
      n <- lift (py_len points) ;;
      let args := {| point_coords := Some points;
                     point_labels := Some (repeat 1%Z n);
                     box := None;
                     multimask_output := true |} in
      r <- call (EvPredict args) (sam2_predict c img args) ;;
      ret {| masks := fst r; scores := snd r |}
  end.

Definition box_args (b : json) : PredictArgs :=
  {| point_coords := None; point_labels := None;
     box := Some b; multimask_output := false |}.

(** The [for box in boxes] loop; [all_masks] and [all_scores] grow by
    [extend]. *)
Fixpoint boxes_loop (img : image) (boxes : list json)
    (all_masks : list Np.ndarray) (all_scores : list Q) : M SegResult :=
  match boxes with
  | [] => ret {| masks := all_masks; scores := all_scores |}
  | b :: rest =>
      r <- call (EvPredict (box_args b)) (sam2_predict c img (box_args b)) ;;
      boxes_loop img rest (all_masks ++ fst r) (all_scores ++ snd r)
  end.

(** [SAM2Predictor.segment_with_boxes]. *)
Definition segment_with_boxes (self : SAM2Predictor) (img : image) (boxes : json)
  : M SegResult :=
  match predictor self with
  | None => raise (RuntimeError "Model not loaded")
  | Some _ =>
      call (EvSetImage img) (sam2_set_image c img) ;;;
      bs <- lift (py_iter boxes) ;;
      boxes_loop img bs [] []
  end.

End Predictor.

(* ===================================================================== *)
(** * The standard library's [base64]                                      *)
(* ===================================================================== *)

Module Base64.
Local Open Scope N_scope.

(** The character of a 6-bit value: [A-Z], [a-z], [0-9], [+], [/]. *)
Definition alphabet (s : N) : ascii :=
  ascii_of_N (if s <? 26 then 65 + s
              else if s <? 52 then 71 + s
              else if s <? 62 then s - 4
              else if s =? 62 then 43 else 47).

(** The 6-bit value of a character, if it is in the alphabet. *)
Definition value (ch : ascii) : option N :=
  let n := N_of_ascii ch in
  if (65 <=? n) && (n <=? 90) then Some (n - 65)
  else if (97 <=? n) && (n <=? 122) then Some (n - 71)
  else if (48 <=? n) && (n <=? 57) then Some (n + 4)
  else if n =? 43 then Some 62
  else if n =? 47 then Some 63
  else None.

Definition pad : ascii := "="%char.

(** The 24-bit group of three bytes. *)
Definition group (b0 b1 b2 : N) : N := b0 * 65536 + b1 * 256 + b2.
Definition sextet (i : N) (g : N) : N := (g / 64 ^ (3 - i)) mod 64.
Definition octet (i : N) (g : N) : N := (g / 256 ^ (2 - i)) mod 256.

(** [base64.b64encode(bs).decode('utf-8')]. *)
Fixpoint b64encode (bs : bytes) : string :=
  match bs with
  | [] => EmptyString
  | [b0] =>
      let g := group (Byte.to_N b0) 0 0 in
      String (alphabet (sextet 0 g)) (String (alphabet (sextet 1 g))
        (String pad (String pad EmptyString)))
  | [b0; b1] =>
      let g := group (Byte.to_N b0) (Byte.to_N b1) 0 in
      String (alphabet (sextet 0 g)) (String (alphabet (sextet 1 g))
        (String (alphabet (sextet 2 g)) (String pad EmptyString)))
  | b0 :: b1 :: b2 :: rest =>
      let g := group (Byte.to_N b0) (Byte.to_N b1) (Byte.to_N b2) in
      String (alphabet (sextet 0 g)) (String (alphabet (sextet 1 g))
        (String (alphabet (sextet 2 g)) (String (alphabet (sextet 3 g))
          (b64encode rest))))
  end.

Definition regroup (v0 v1 v2 v3 : N) : N :=
  v0 * 262144 + v1 * 4096 + v2 * 64 + v3.

Definition bytes_of (os : list N) : option bytes :=
  fold_right (fun o acc =>
                match Byte.of_N o, acc with
                | Some b, Some l => Some (b :: l)
                | _, _ => None
                end) (Some []) os.

(** Modelled from the spec: the decoder, which the repository leaves to its
    clients.  It is the inverse reading of the same alphabet: four
    characters give three bytes, and a final group padded with one or two
    [=] gives two bytes or one. *)
Fixpoint b64decode (s : string) : option bytes :=
  match s with
  | EmptyString => Some []
  | String c0 (String c1 (String c2 (String c3 rest))) =>
      match value c0, value c1 with
      | Some v0, Some v1 =>
          if Ascii.eqb c3 pad then
            match rest with
            | EmptyString =>
                if Ascii.eqb c2 pad then
                  bytes_of [octet 0 (regroup v0 v1 0 0)]
                else
                  match value c2 with
                  | Some v2 =>
                      let g := regroup v0 v1 v2 0 in
                      bytes_of [octet 0 g; octet 1 g]
                  | None => None
                  end
            | _ => None
            end
          else
            match value c2, value c3, b64decode rest with
            | Some v2, Some v3, Some tl =>
                let g := regroup v0 v1 v2 v3 in
                match bytes_of [octet 0 g; octet 1 g; octet 2 g] with
                | Some hd => Some (hd ++ tl)
                | None => None
                end
            | _, _, _ => None
            end
      | _, _ => None
      end
  | _ => None
  end.

(** The 64 six-bit values. *)
Definition sextets : list N := map N.of_nat (seq 0 64).

End Base64.

(* ===================================================================== *)
(** * main.py                                                              *)
(* ===================================================================== *)

(** [(mask * 255).astype(np.uint8)]. *)
Definition mask_uint8 (mask : Np.ndarray) : list (list Z) :=
  map (map (fun b : bool => if b then 255%Z else 0%Z)) mask.

Record MaskEntry := mkMaskEntry {
  entry_id : nat;
  entry_mask : string;
  entry_score : Q;
  entry_area : Z
}.

Record SegmentBody := mkSegmentBody {
  body_success : bool;
  body_mode : string;
  body_num_masks : nat;
  body_masks : list MaskEntry;
  body_image_shape : nat * nat
}.

(** What the client receives: the JSON a handler returned (HTTP 200), or
    the status and detail of the [HTTPException] it raised. *)
Inductive response (B : Type) :=
| JSON200 (body : B)
| HTTPError (status_code : Z) (detail : string).
Arguments JSON200 {B} body.
Arguments HTTPError {B} status_code detail.

Definition status_of {B} (r : response B) : Z :=
  match r with
  | JSON200 _ => 200
  | HTTPError code _ => code
  end.

Section Main.
Context (c : Collaborators).

(** [process_image_data]. *)
Definition process_image_data (image_data : bytes) : result image :=
  match image_open c image_data with
  | Return image_array => Return image_array
  | Raise _ => Raise (HTTPException 400 "Invalid image data")
  end.

(** [encode_mask_to_base64], for a mask that is a numpy array, as are all
    the masks the [segment_*] methods return (both [isinstance] tests
    pass).  Any exception of the image library gives the empty string. *)
Definition encode_mask_to_base64 (mask : Np.ndarray) : string :=
  match png_save c (mask_uint8 mask) with
  | Return buffer => Base64.b64encode buffer
  | Raise _ => ""
  end.

(** [run_segmentation]: the body of [_segment], run on the worker pool and
    awaited.  [g_predictor] is the module-level [predictor]. *)
Definition run_segmentation (g_predictor : SAM2Predictor) (image_array : image)
    (mode : string) (points boxes : option json) : M SegResult :=
  if String.eqb mode "everything" then
    segment_everything c g_predictor image_array
  else if String.eqb mode "points" && truthy_opt points then
    match points with
    | Some pts => segment_with_points c g_predictor image_array pts
    | None => raise (ValueError ("Invalid segmentation mode: " ++ mode)%string)
    end
  else if String.eqb mode "boxes" && truthy_opt boxes then
    match boxes with
    | Some bxs => segment_with_boxes c g_predictor image_array bxs
    | None => raise (ValueError ("Invalid segmentation mode: " ++ mode)%string)
    end
  else raise (ValueError ("Invalid segmentation mode: " ++ mode)%string).

(** [if points: parsed_points = json.loads(points)], for a form field. *)
Definition parse_field (field : option string) : result (option json) :=
  match field with
  | None => Return None
  | Some s =>
      if String.eqb s "" then Return None
      else match json_loads c s with
           | Return v => Return (Some v)
           | Raise e => Raise e
           end
  end.

(** The [for i, mask in enumerate(masks)] loop that builds
    [encoded_masks]. *)
Fixpoint encode_loop (i : nat) (ms : list Np.ndarray) (ss : list Q) : list MaskEntry :=
  match ms with
  | [] => []
  | mask :: rest =>
      {| entry_id := i;
         entry_mask := encode_mask_to_base64 mask;
         entry_score := if (i <? List.length ss)%nat then nth i ss 0 else 0;
         entry_area := Z.of_nat (Np.sum mask) |}
      :: encode_loop (S i) rest ss
  end.

(** The part both segmentation handlers share, from the decoded image on. *)
Definition segment_decoded (g_predictor : SAM2Predictor) (image_array : image)
    (mode : string) (points boxes : option string) : M (response SegmentBody) :=
  parsed_points <- lift (parse_field points) ;;
  parsed_boxes <- lift (parse_field boxes) ;;
  result <- run_segmentation g_predictor image_array mode parsed_points parsed_boxes ;;
  let encoded_masks := encode_loop 0 (masks result) (scores result) in
  ret (JSON200 {| body_success := true;
                  body_mode := mode;
                  body_num_masks := List.length encoded_masks;
                  body_masks := encoded_masks;
                  body_image_shape := image_shape image_array |}).

(** [segment_image], the handler of [POST /segment]. *)
Definition segment_image (g_predictor : option SAM2Predictor) (file : bytes)
    (mode : string) (points boxes : option string) : M (response SegmentBody) :=
  match g_predictor with
  | None => ret (HTTPError 503 "SAM 2 model not loaded")
  | Some p =>
      try_except
        (image_array <- lift (process_image_data file) ;;
         segment_decoded p image_array mode points boxes)
        (fun e => ret (HTTPError 500 (str c e)))
  end.

(** [segment_image_url], the handler of [POST /segment-url]. *)
Definition segment_image_url (g_predictor : option SAM2Predictor) (image_url : string)
    (mode : string) (points boxes : option string) : M (response SegmentBody) :=
  match g_predictor with
  | None => ret (HTTPError 503 "SAM 2 model not loaded")
  | Some p =>
      try_except
        (content <- lift (requests_get c image_url) ;;
         image_array <- lift (process_image_data content) ;;
         segment_decoded p image_array mode points boxes)
        (fun e => ret (HTTPError 500 (str c e)))
  end.

End Main.

(* ===================================================================== *)
(** * Model lifecycle: construction, loading, health                       *)
(* ===================================================================== *)

Record ModelConfig := mkModelConfig {
  config : string;
  checkpoint : string;
  url : string
}.

(** [SAM2Predictor.model_configs]. *)
Definition model_configs (size : string) : option ModelConfig :=
  if String.eqb size "tiny" then
    Some {| config := "sam2_hiera_t.yaml";
            checkpoint := "sam2_hiera_tiny.pt";
            url := "https://dl.fbaipublicfiles.com/segment_anything_2/072824/sam2_hiera_tiny.pt" |}
  else if String.eqb size "small" then
    Some {| config := "sam2_hiera_s.yaml";
            checkpoint := "sam2.1_hiera_small.pt";
            url := "https://dl.fbaipublicfiles.com/segment_anything_2/092824/sam2.1_hiera_small.pt" |}
  else if String.eqb size "base_plus" then
    Some {| config := "sam2_hiera_b+.yaml";
            checkpoint := "sam2.1_hiera_base_plus.pt";
            url := "https://dl.fbaipublicfiles.com/segment_anything_2/092824/sam2.1_hiera_base_plus.pt" |}
  else if String.eqb size "large" then
    Some {| config := "sam2_hiera_l.yaml";
            checkpoint := "sam2.1_hiera_large.pt";
            url := "https://dl.fbaipublicfiles.com/segment_anything_2/092824/sam2.1_hiera_large.pt" |}
  else None.

(** What the environment answers while a model is constructed and loaded. *)
Record LoadEnv := mkLoadEnv {
  cuda_available : bool;
  (** [self.models_dir.mkdir(exist_ok=True)] *)
  mkdir_models_dir : result unit;
  (** whether [from sam2... import ...] succeeds *)
  sam2_importable : bool;
  (** [_download], run on the default executor: url, file name *)
  download : string -> string -> result unit;
  (** [build_sam2(config_file, ckpt_path, device)] *)
  build_sam2 : string -> string -> string -> result sam2_model;
  (** [SAM2ImagePredictor(model)] *)
  make_image_predictor : sam2_model -> result image_predictor
}.

(** The process-wide state: the module-level [predictor], the checkpoint
    files present in the models directory, and (as a ghost counter) how
    many times [SAM2Predictor.load_model] has been entered. *)
Record World := mkWorld {
  w_predictor : option SAM2Predictor;
  w_files : list string;
  w_loads : nat
}.

Definition initial_world : World :=
  {| w_predictor := None; w_files := []; w_loads := 0 |}.

Record LoadReply := mkLoadReply {
  reply_status : string;
  reply_message : string
}.

Record HealthStatus := mkHealthStatus {
  hs_status : string;
  hs_model_loaded : bool;
  hs_device : string;
  hs_service_running : bool;
  hs_error : option string;
  hs_message : string;
  hs_timestamp : string
}.

(** A call of [load_model_endpoint] between its suspension points.  The
    handler runs on the event loop and gives up control only where an
    [await] really suspends, which is the executor future of
    [download_model] when the checkpoint file is absent. *)
Inductive task :=
| Entered
| Downloading (cfg : ModelConfig)
| Replied (r : LoadReply).

(** Where a call of [SAM2Predictor.load_model] stands when it gives up
    control: suspended on its download, or finished (returned or
    raised). *)
Inductive load_state :=
| Suspended (cfg : ModelConfig)
| Finished (r : result unit).

Section Lifecycle.
Context (c : Collaborators) (env : LoadEnv).

(** [SAM2Predictor.__init__] with the default [model_size]. *)
Definition new_SAM2Predictor : result SAM2Predictor :=
  match mkdir_models_dir env with
  | Raise e => Raise e
  | Return _ =>
      Return {| model_size := "tiny";
                device := if cuda_available env then "cuda" else "cpu";
                model := None;
                predictor := None |}
  end.

(** [load_model] up to the [await] of [download_model]: the imports, the
    configuration lookup, the test [model_path.exists()]. *)
Definition load_model_begin (files : list string) (self : SAM2Predictor)
  : result (ModelConfig * bool) :=
  if negb (sam2_importable env) then Raise (ImportError "SAM 2 package not found")
  else match model_configs (model_size self) with
       | None => Raise (ValueError ("Invalid model size: " ++ model_size self)%string)
       | Some cfg => Return (cfg, existsb (String.eqb (checkpoint cfg)) files)
       end.

(** [load_model] from [build_sam2] on.  The attributes are assigned in
    place, so an exception keeps what was assigned before it. *)
Definition load_model_finish (self : SAM2Predictor) (cfg : ModelConfig)
  : SAM2Predictor * result unit :=
  match build_sam2 env (config cfg) (checkpoint cfg) (device self) with
  | Raise e => (self, Raise e)
  | Return m =>
      let self1 := {| model_size := model_size self; device := device self;
                      model := Some m; predictor := predictor self |} in
      match make_image_predictor env m with
      | Raise e => (self1, Raise e)
      | Return ip =>
          ({| model_size := model_size self; device := device self;
              model := Some m; predictor := Some ip |}, Return tt)
      end
  end.

Definition success (message : string) : LoadReply :=
  {| reply_status := "success"; reply_message := message |}.
Definition failure (e : exn) : LoadReply :=
  {| reply_status := "error"; reply_message := str c e |}.

(** [load_model] from [build_sam2] on, in the process state: [self] is the
    object the module-level name refers to. *)
Definition load_model_build (w : World) (self : SAM2Predictor) (cfg : ModelConfig)
  : World * result unit :=
  let '(self', r) := load_model_finish self cfg in
  ({| w_predictor := Some self'; w_files := w_files w; w_loads := w_loads w |}, r).

(** Entering [load_model] on [self]: it runs up to its reply, or up to the
    [await] of the executor future when the checkpoint has to be
    downloaded. *)
Definition load_model_enter (w : World) (self : SAM2Predictor) : World * load_state :=
  let w1 := {| w_predictor := w_predictor w; w_files := w_files w;
               w_loads := S (w_loads w) |} in
  match load_model_begin (w_files w) self with
  | Raise e => (w1, Finished (Raise e))
  | Return (cfg, true) =>
      let '(w2, r) := load_model_build w1 self cfg in (w2, Finished r)
  | Return (cfg, false) => (w1, Suspended cfg)
  end.

(** Resuming [load_model] when the download is over; the checkpoint file
    is taken to be there from then on.  The call resumes on the object it
    was started on, which the module-level name still refers to: nothing
    assigns to [predictor] once it is set ([suspended_has_predictor]
    below shows that the other branch is never taken). *)
Definition load_model_resume (w : World) (cfg : ModelConfig) : World * result unit :=
  match download env (url cfg) (checkpoint cfg) with
  | Raise e => (w, Raise e)
  | Return _ =>
      let w1 := {| w_predictor := w_predictor w;
                   w_files := checkpoint cfg :: w_files w;
                   w_loads := w_loads w |} in
      match w_predictor w with
      | Some self => load_model_build w1 self cfg
      | None => (w1, Raise (RuntimeError "no predictor"))
      end
  end.

(** [await self.load_model()] with nothing else running. *)
Definition load_model (w : World) (self : SAM2Predictor) : World * result unit :=
  match load_model_enter w self with
  | (w1, Finished r) => (w1, r)
  | (w1, Suspended cfg) => load_model_resume w1 cfg
  end.

(** The reply of [load_model_endpoint] to what [load_model] did. *)
Definition reply_of (r : result unit) : LoadReply :=
  match r with
  | Return _ => success "Model loaded successfully"
  | Raise e => failure e
  end.

(** One uninterrupted stretch of [load_model_endpoint]. *)
Definition step_task (w : World) (t : task) : World * task :=
  match t with
  | Entered =>
      match (match w_predictor w with
             | Some p => Return p
             | None => new_SAM2Predictor
             end) with
      | Raise e => (w, Replied (failure e))
      | Return p =>
          let w1 := {| w_predictor := Some p; w_files := w_files w;
                       w_loads := w_loads w |} in
          match model p with
          | Some _ => (w1, Replied (success "Model already loaded"))
          | None =>
              match load_model_enter w1 p with
              | (w2, Finished r) => (w2, Replied (reply_of r))
              | (w2, Suspended cfg) => (w2, Downloading cfg)
              end
          end
      end
  | Downloading cfg =>
      let '(w1, r) := load_model_resume w cfg in (w1, Replied (reply_of r))
  | Replied r => (w, Replied r)
  end.

(** [load_model_endpoint] with nothing else running: at most one
    suspension, so two stretches reach the reply. *)
Definition load_model_endpoint (w : World) : World * task :=
  let '(w1, t1) := step_task w Entered in step_task w1 t1.

(** [startup_event]: a fresh predictor is assigned to the module-level
    name and loaded; a failure of either step is logged and the service
    starts all the same. *)
Definition startup_event (w : World) : World :=
  match new_SAM2Predictor with
  | Raise _ => w
  | Return p =>
      fst (load_model
             {| w_predictor := Some p; w_files := w_files w; w_loads := w_loads w |} p)
  end.

(** The [try] body of [health_check]. *)
Definition health_try (g_predictor : option SAM2Predictor) : result HealthStatus :=
  let model_loaded :=
    match g_predictor with
    | Some p => match model p with Some _ => true | None => false end
    | None => false
    end in
  Return {| hs_status := "healthy";
            hs_model_loaded := model_loaded;
            hs_device := match g_predictor with
                         | Some p => device p
                         | None => "unknown"
                         end;
            hs_service_running := true;
            hs_error := None;
            hs_message := if negb model_loaded then "Model loading in progress..."
                          else "Service ready";
            hs_timestamp := "2025-06-23T15:34:40Z" |}.

(** [health_check], the handler of [GET /health]: both the [try] body and
    the [except] branch return a dictionary. *)
Definition health_check (g_predictor : option SAM2Predictor) : response HealthStatus :=
  match health_try g_predictor with
  | Return health_status => JSON200 health_status
  | Raise e =>
      JSON200 {| hs_status := "healthy";
                 hs_model_loaded := false;
                 hs_device := "unknown";
                 hs_service_running := true;
                 hs_error := Some (str c e);
                 hs_message := "Service starting up...";
                 hs_timestamp := "2025-06-23T15:34:40Z" |}
  end.

(** Two calls of [load_model_endpoint] in flight: the event loop resumes
    one of them at a time. *)
Inductive caller := First | Second.

Record System := mkSystem {
  world : World;
  first_call : task;
  second_call : task
}.

Definition resume (s : System) (who : caller) : System :=
  match who with
  | First =>
      let '(w, t) := step_task (world s) (first_call s) in
      {| world := w; first_call := t; second_call := second_call s |}
  | Second =>
      let '(w, t) := step_task (world s) (second_call s) in
      {| world := w; first_call := first_call s; second_call := t |}
  end.

Definition run (schedule : list caller) (s : System) : System :=
  fold_left resume schedule s.

Definition two_callers (w : World) : System :=
  {| world := w; first_call := Entered; second_call := Entered |}.

End Lifecycle.

(* ===================================================================== *)
(** * mock_sam2_service.py                                                 *)
(* ===================================================================== *)

(** The stand-in service used to test the front end: same routes, no
    model.  Its [process_image_data] is that of [main.py]; its
    [encode_mask_to_base64] is the one of [main.py] without the two
    [isinstance] tests, which an array passes. *)
Module Mock.

(** [a[lo:hi] = True] sets the indices [lo <= i < hi] (the bounds used
    below never exceed the length). *)
Definition in_slice (lo hi i : nat) : bool := (lo <=? i)%nat && (i <? hi)%nat.

(** The value [create_mock_mask] gives to the pixel in row [y], column [x]:
    a rectangle for ids 0 and 2, a disc for id 1, nothing for any other
    id. *)
Definition mock_pixel (height width mask_id y x : nat) : bool :=
  match mask_id with
  | 0%nat =>
      in_slice (height / 4) (height / 2) y && in_slice (width / 4) (width / 2) x
  | 1%nat =>
      let center_y := Z.of_nat (height / 2) in
      let center_x := Z.of_nat (width / 2) in
      let radius := Z.of_nat (Nat.min height width / 6) in
      ((Z.of_nat x - center_x) ^ 2 + (Z.of_nat y - center_y) ^ 2 <=? radius ^ 2)%Z
  | 2%nat =>
      in_slice (height / 2) (3 * height / 4) y && in_slice (width / 2) (3 * width / 4) x
  | _ => false
  end.

(** [create_mock_mask(image_shape, mask_id)], with [image_shape[:2]] as a
    pair. *)
Definition create_mock_mask (image_shape : nat * nat) (mask_id : nat) : Np.ndarray :=
  let '(height, width) := image_shape in
  map (fun y => map (fun x => mock_pixel height width mask_id y x) (seq 0 width))
      (seq 0 height).

(** The body of the mock's success answer: that of the service, with the
    key ['mock']. *)
Record MockBody := mkMockBody {
  mock_body : SegmentBody;
  body_mock : bool
}.

Section Handlers.
Context (c : Collaborators).

Definition encode_mask_to_base64 (mask : Np.ndarray) : string :=
  match png_save c (mask_uint8 mask) with
  | Return buffer => Base64.b64encode buffer
  | Raise _ => ""
  end.

(** The [for i in range(num_masks)] loop.  The score [0.8 + (i * 0.05)] is
    given as a rational; the double the code computes is the nearest one
    to it or its neighbour. *)
Definition mock_masks (image_shape : nat * nat) (num_masks : nat) : list MaskEntry :=
  map (fun i =>
         let mask := create_mock_mask image_shape i in
         {| entry_id := i;
            entry_mask := encode_mask_to_base64 mask;
            entry_score := 0.8 + inject_Z (Z.of_nat i) * 0.05;
            entry_area := Z.of_nat (Np.sum mask) |})
      (seq 0 num_masks).

(** The part both mock handlers share, from the image bytes on. *)
Definition segment_bytes (image_data : result bytes) (mode : string)
  : response MockBody :=
  match (match image_data with
         | Return data => process_image_data c data
         | Raise e => Raise e
         end) with
  | Raise e => HTTPError 500 (str c e)
  | Return image_array =>
      let num_masks := if String.eqb mode "everything" then 3%nat else 1%nat in
      let encoded_masks := mock_masks (image_shape image_array) num_masks in
      JSON200 {| mock_body :=
                   {| body_success := true;
                      body_mode := mode;
                      body_num_masks := List.length encoded_masks;
                      body_masks := encoded_masks;
                      body_image_shape := image_shape image_array |};
                 body_mock := true |}
  end.

(** The mock's [segment_image]: the prompts are accepted and not read. *)
Definition segment_image (file : bytes) (mode : string)
    (points boxes : option string) : response MockBody :=
  segment_bytes (Return file) mode.

(** The mock's [segment_image_url]. *)
Definition segment_image_url (image_url : string) (mode : string)
    (points boxes : option string) : response MockBody :=
  segment_bytes (requests_get c image_url) mode.

End Handlers.

End Mock.

(* ********************************************************************* *)
(** * Vocabulary of the properties                                         *)
(* ********************************************************************* *)

(** The definitions below are not code of the service: they name what the
    properties talk about. *)

Definition iou_of (a b : MaskData) : Q :=
  _calculate_mask_iou (segmentation a) (segmentation b).


(** [later] was accepted with [earlier] already in the list. *)
Definition tolerates (earlier later : MaskData) : Prop :=
  iou_of later earlier <= overlap_threshold.

(** What [segment_everything] keeps, before it is split into two lists. *)
Definition kept (raw : list MaskData) : list MaskData :=
  firstn max_masks (filter_loop (py_sorted_reverse predicted_iou raw) []).

Definition box_events (boxes : list json) : list event :=
  map (fun b => EvPredict (box_args b)) boxes.

(** Back from 8-bit pixels to booleans: any non-zero pixel is [True]. *)
Definition mask_bool (rows : list (list Z)) : Np.ndarray :=
  map (map (fun v => negb (Z.eqb v 0))) rows.

(** The two shapes of request the router rejects that the design names:
    points mode without a non-empty point list, and a mode that is none of
    the three known ones. *)
Definition invalid_combination (mode : string) (pts : option json) : Prop :=
  (mode = "points" /\ truthy_opt pts = false) \/
  (mode <> "everything" /\ mode <> "points" /\ mode <> "boxes").

(** The model object has been built and stored. *)
Definition model_built (g : option SAM2Predictor) : Prop :=
  exists p m, g = Some p /\ model p = Some m.

(** Both attributes are set: inference can run. *)
Definition inference_ready (g : option SAM2Predictor) : Prop :=
  exists p m ip, g = Some p /\ model p = Some m /\ predictor p = Some ip.

(** Nothing is loaded: no predictor object, or one without a model (before
    a load, while one is in flight, after one failed to build). *)
Definition nothing_loaded (g : option SAM2Predictor) : Prop :=
  g = None \/ exists p, g = Some p /\ model p = None.

Definition unloaded (w : World) : Prop := nothing_loaded (w_predictor w).

(** A call is waiting for its checkpoint download. *)
Definition suspended (s : System) : Prop :=
  (exists cfg, first_call s = Downloading cfg) \/
  (exists cfg, second_call s = Downloading cfg).

Definition both_replied (s : System) : Prop :=
  exists r1 r2, first_call s = Replied r1 /\ second_call s = Replied r2.

Section Vocabulary.
Context (c : Collaborators) (env : LoadEnv).

(** The PNG reader on the receiving side: the inverse the image library
    offers for [png_save]. *)
Context (png_load : bytes -> option (list (list Z))).

(** The model's answer to the single-mask query for one box. *)
Definition box_answer (img : image) (b : json) : list Np.ndarray * list Q :=
  match sam2_predict c img (box_args b) with
  | Return r => r
  | Raise _ => ([], [])
  end.

(** The model's single mask and score for a box (meaningful under the
    contract that a single-mask query answers with one of each). *)
Definition box_mask (img : image) (b : json) : Np.ndarray :=
  hd [] (fst (box_answer img b)).
Definition box_score (img : image) (b : json) : Q :=
  hd 0 (snd (box_answer img b)).

(** Modelled from the spec: decoding a transported mask, which the
    repository leaves to its clients.  It undoes the three steps of
    [encode_mask_to_base64] in reverse order: base64 text to bytes, PNG
    bytes to an 8-bit single-channel image, pixels to booleans. *)
Definition decode_mask_from_base64 (s : string) : option Np.ndarray :=
  match Base64.b64decode s with
  | None => None
  | Some buffer =>
      match png_load buffer with
      | None => None
      | Some rows => Some (mask_bool rows)
      end
  end.

Definition entry_of (i : nat) (mask : Np.ndarray) (ss : list Q) : MaskEntry :=
  {| entry_id := i;
     entry_mask := encode_mask_to_base64 c mask;
     entry_score := if (i <? List.length ss)%nat then nth i ss 0 else 0;
     entry_area := Z.of_nat (Np.sum mask) |}.

(** The guarantee the design asks for: however the event loop interleaves
    two calls made while nothing is loaded, [load_model] is entered exactly
    once by the time both have replied. *)
Definition single_flight : Prop :=
  forall (w : World) (schedule : list caller),
    unloaded w ->
    both_replied (run c env schedule (two_callers w)) ->
    w_loads (world (run c env schedule (two_callers w))) = S (w_loads w).

End Vocabulary.

(** [m] only adds to the list of model calls; it never rewrites it. *)
Definition appends {A} (m : M A) : Prop :=
  forall t, exists more, snd (m t) = t ++ more.

(** Neither attribute of the predictor object is set (or there is no
    object): the state before any load has got as far as [build_sam2]. *)
Definition nothing_ready (g : option SAM2Predictor) : Prop :=
  g = None \/ exists p, g = Some p /\ model p = None /\ predictor p = None.

(** An environment in which every step of construction and loading
    succeeds. *)
Definition good_environment (env : LoadEnv) : Prop :=
  mkdir_models_dir env = Return tt /\
  sam2_importable env = true /\
  (forall u f, download env u f = Return tt) /\
  (forall cfg ckpt dev, exists m, build_sam2 env cfg ckpt dev = Return m) /\
  (forall m, exists ip, make_image_predictor env m = Return ip).

(** The size the predictor was constructed with is one of the four the
    code knows. *)
Definition known_size (g : option SAM2Predictor) : Prop :=
  forall p, g = Some p -> model_configs (model_size p) <> None.

(** How many of the two calls have not run at all yet. *)
Definition not_started (s : System) : nat :=
  (match first_call s with Entered => 1 | _ => 0 end) +
  (match second_call s with Entered => 1 | _ => 0 end).

(* ===================================================================== *)
(** * A concrete environment                                               *)
(* ===================================================================== *)

(** Stand-ins for the collaborators, small enough to run: they serve to
    evaluate the handlers on concrete requests. *)
Module Demo.

Definition img : image :=
  [[(10, 20, 30); (10, 20, 30)]; [(10, 20, 30); (10, 20, 30)]]%Z.

Definition top_row : Np.ndarray := [[true; true]; [false; false]].
Definition top_left : Np.ndarray := [[true; false]; [false; false]].
Definition bottom_row : Np.ndarray := [[false; false]; [true; true]].
Definition nothing : Np.ndarray := [[false; false]; [false; false]].

(** An image reader that accepts any non-empty upload. *)
Definition open_image (data : bytes) : result image :=
  match data with
  | [] => Raise (OtherError "cannot identify image file")
  | _ => Return img
  end.

Definition byte_of_pixel (v : Z) : Byte.byte :=
  match Byte.of_N (Z.to_N v) with Some b => b | None => Byte.x00 end.

(** A lossless container in place of PNG: each row is written as its
    length followed by its pixels. *)
Definition save_rows (rows : list (list Z)) : result bytes :=
  Return (flat_map (fun row => byte_of_pixel (Z.of_nat (List.length row))
                               :: map byte_of_pixel row) rows).

Fixpoint read_rows (fuel : nat) (data : bytes) : option (list (list Z)) :=
  match fuel, data with
  | _, [] => Some []
  | O, _ => None
  | S fuel', n :: rest =>
      let w := N.to_nat (Byte.to_N n) in
      if (w <=? List.length rest)%nat then
        match read_rows fuel' (skipn w rest) with
        | Some rows => Some (map (fun b => Z.of_N (Byte.to_N b)) (firstn w rest) :: rows)
        | None => None
        end
      else None
  end.

Definition load_rows (data : bytes) : option (list (list Z)) :=
  read_rows (List.length data) data.

Definition two_boxes : list json :=
  [JList [JNum 10; JNum 10; JNum 20; JNum 20];
   JList [JNum 30; JNum 30; JNum 40; JNum 40]]%Z.

(** A parser that knows three texts. *)
Definition parse_json (s : string) : result json :=
  if String.eqb s "[[10,10,20,20],[30,30,40,40]]" then Return (JList two_boxes)
  else if String.eqb s "[[50,50]]" then Return (JList [JList [JNum 50; JNum 50]])%Z
  else if String.eqb s "[]" then Return (JList [])
  else Raise (OtherError "Expecting value").

Definition fetch (url : string) : result bytes :=
  if String.eqb url "" then Raise (OtherError "Invalid URL")
  else Return [Byte.x89; Byte.x50; Byte.x4e; Byte.x47].

Definition candidates : list MaskData :=
  [ {| segmentation := top_left; predicted_iou := 0.7 |};
    {| segmentation := top_row; predicted_iou := 0.9 |};
    {| segmentation := bottom_row; predicted_iou := 0.7 |};
    {| segmentation := top_row; predicted_iou := 0.7 |} ].

(** A model that answers a box with one mask and one score, and a point
    set with three masks but only two scores. *)
Definition predict (_ : image) (args : PredictArgs)
  : result (list Np.ndarray * list Q) :=
  if multimask_output args
  then Return ([top_row; top_left; bottom_row], [0.9; 0.8])
  else match box args with
       | Some (JList (JNum 10%Z :: _)) => Return ([top_left], [0.95])
       | _ => Return ([bottom_row], [0.85])
       end.

Definition c : Collaborators :=
  {| image_open := open_image;
     png_save := save_rows;
     json_loads := parse_json;
     requests_get := fetch;
     sam2_generate := fun _ => Return candidates;
     sam2_set_image := fun _ => Return tt;
     sam2_predict := predict;
     http_exception_str := fun code detail =>
       (NilZero.string_of_int (Z.to_int code) ++ ": " ++ detail)%string |}.

Definition upload : bytes := [Byte.x89; Byte.x50; Byte.x4e; Byte.x47].

(** An installation in which everything needed to load is in place. *)
Definition env : LoadEnv :=
  {| cuda_available := false;
     mkdir_models_dir := Return tt;
     sam2_importable := true;
     download := fun _ _ => Return tt;
     build_sam2 := fun cfg ckpt dev => Return (Sam2Model cfg ckpt dev);
     make_image_predictor := fun m => Return (SAM2ImagePredictor m) |}.

(** An installation without the [sam2] package. *)
Definition env_without_sam2 : LoadEnv :=
  {| cuda_available := false;
     mkdir_models_dir := Return tt;
     sam2_importable := false;
     download := fun _ _ => Return tt;
     build_sam2 := fun cfg ckpt dev => Return (Sam2Model cfg ckpt dev);
     make_image_predictor := fun m => Return (SAM2ImagePredictor m) |}.

Definition constructed : SAM2Predictor :=
  {| model_size := "tiny"; device := "cpu"; model := None; predictor := None |}.

Definition loaded : SAM2Predictor :=
  let m := Sam2Model "sam2_hiera_t.yaml" "sam2_hiera_tiny.pt" "cpu" in
  {| model_size := "tiny"; device := "cpu";
     model := Some m; predictor := Some (SAM2ImagePredictor m) |}.

Definition constructed_world : World :=
  {| w_predictor := Some constructed; w_files := []; w_loads := 0 |}.

End Demo.

(** Further stand-ins, for the runs in which something fails or is already
    in place. *)
Module Cases.
Import Demo.



(** A model that fails on the box starting at 30. *)
Definition predict_failing (i : image) (args : PredictArgs)
  : result (list Np.ndarray * list Q) :=
  match box args with
  | Some (JList (JNum 30%Z :: _)) => Raise (RuntimeError "CUDA out of memory")
  | _ => predict i args
  end.

Definition c_failing_model : Collaborators :=
  {| image_open := open_image;
     png_save := save_rows;
     json_loads := parse_json;
     requests_get := fetch;
     sam2_generate := fun _ => Return candidates;
     sam2_set_image := fun _ => Return tt;
     sam2_predict := predict_failing;
     http_exception_str := http_exception_str c |}.

(** An image library that cannot write PNG. *)
Definition c_failing_png : Collaborators :=
  {| image_open := open_image;
     png_save := fun _ => Raise (OtherError "encoder error");
     json_loads := parse_json;
     requests_get := fetch;
     sam2_generate := fun _ => Return candidates;
     sam2_set_image := fun _ => Return tt;
     sam2_predict := predict;
     http_exception_str := http_exception_str c |}.

Definition tiny : ModelConfig :=
  {| config := "sam2_hiera_t.yaml";
     checkpoint := "sam2_hiera_tiny.pt";
     url := "https://dl.fbaipublicfiles.com/segment_anything_2/072824/sam2_hiera_tiny.pt" |}.

(** Constructed, nothing loaded, the checkpoint already on disk. *)
Definition cached_world : World :=
  {| w_predictor := Some constructed; w_files := ["sam2_hiera_tiny.pt"]; w_loads := 0 |}.

(** An installation in which the model builds and the image predictor
    around it cannot be constructed. *)
Definition env_failing_image_predictor : LoadEnv :=
  {| cuda_available := false;
     mkdir_models_dir := Return tt;
     sam2_importable := true;
     download := fun _ _ => Return tt;
     build_sam2 := fun cfg ckpt dev => Return (Sam2Model cfg ckpt dev);
     make_image_predictor := fun _ => Raise (RuntimeError "CUDA out of memory") |}.

(** The predictor object after a load in that installation: the model is
    set, the image predictor is not. *)
Definition half_loaded : SAM2Predictor :=
  {| model_size := "tiny"; device := "cpu";
     model := Some (Sam2Model "sam2_hiera_t.yaml" "sam2_hiera_tiny.pt" "cpu");
     predictor := None |}.

(** After a successful load. *)
Definition loaded_world : World :=
  {| w_predictor := Some loaded; w_files := ["sam2_hiera_tiny.pt"]; w_loads := 1 |}.

End Cases.

(* ********************************************************************* *)
(** * Properties                                                           *)
(* ********************************************************************* *)

(* ===================================================================== *)
(** * Properties of the sort                                               *)
(* ===================================================================== *)

Section PySortedFacts.
Context {A : Type} (key : A -> Q).

Local Abbreviation sort := (py_sorted_reverse key).
Local Abbreviation desc := (descending key).

Lemma Qle_bool_false (x y : Q) : Qle_bool x y = false -> y < x.
Proof.
  intros H. apply Qnot_le_lt. intros Hle.
  apply Qle_bool_iff in Hle. congruence.
Qed.

Lemma insert_desc_perm (x : A) (l : list A) :
  Permutation (insert_desc key x l) (x :: l).
Proof.
  induction l as [|y l IH]; simpl.
  - apply Permutation_refl.
  - destruct (Qle_bool (key y) (key x)).
    + apply Permutation_refl.
    + eapply perm_trans; [apply perm_skip, IH | apply perm_swap].
Qed.

Lemma py_sorted_perm (l : list A) : Permutation (sort l) l.
Proof.
  induction l as [|x l IH]; simpl.
  - constructor.
  - eapply perm_trans; [apply insert_desc_perm | now apply perm_skip].
Qed.

Lemma desc_trans (a b c : A) : desc a b -> desc b c -> desc a c.
Proof. unfold descending. intros. eapply Qle_trans; eauto. Qed.

Lemma insert_desc_sorted (x : A) (l : list A) :
  StronglySorted desc l -> StronglySorted desc (insert_desc key x l).
Proof.
  induction 1 as [|y l Hs IH Hy]; simpl.
  - repeat constructor.
  - destruct (Qle_bool (key y) (key x)) eqn:E.
    + apply Qle_bool_iff in E.
      constructor; [now constructor|].
      constructor; [exact E|].
      eapply Forall_impl; [|exact Hy].
      intros c Hc. eapply desc_trans; [exact E | exact Hc].
    + apply Qle_bool_false in E.
      constructor; [exact IH|].
      eapply Permutation_Forall; [apply Permutation_sym, insert_desc_perm|].
      constructor; [|exact Hy].
      unfold descending. now apply Qlt_le_weak.
Qed.

Lemma py_sorted_sorted (l : list A) : StronglySorted desc (sort l).
Proof.
  induction l as [|x l IH]; simpl.
  - constructor.
  - now apply insert_desc_sorted.
Qed.



(** Sorting a list that is already in descending order changes nothing. *)
Lemma py_sorted_id (l : list A) : StronglySorted desc l -> sort l = l.
Proof.
  induction 1 as [|x l Hs IH Hx]; simpl; [reflexivity|].
  rewrite IH. destruct l as [|y l]; simpl; [reflexivity|].
  inversion Hx as [|? ? Hxy _]; subst.
  apply Qle_bool_iff in Hxy. now rewrite Hxy.
Qed.



Lemma StronglySorted_remove_mid (R : A -> A -> Prop) (a : list A) (c : A) (r : list A) :
  StronglySorted R (a ++ c :: r) -> StronglySorted R (a ++ r).
Proof.
  induction a as [|x a IH]; simpl; intros H.
  - now inversion H.
  - inversion H as [|? ? Hs Hx]; subst. constructor; [now apply IH|].
    rewrite Forall_app in *. destruct Hx as [Ha Hcr].
    split; [exact Ha | now inversion Hcr].
Qed.

End PySortedFacts.

(* ===================================================================== *)
(** * Intersection over union                                              *)
(* ===================================================================== *)

Lemma zip_with_comm {A B} (f : A -> A -> B) (xs ys : list A) :
  (forall x y, f x y = f y x) ->
  Np.zip_with f xs ys = Np.zip_with f ys xs.
Proof.
  intros Hf. revert ys. induction xs as [|x xs IH]; intros [|y ys]; simpl;
    try reflexivity.
  now rewrite Hf, IH.
Qed.

Lemma logical_and_comm (a b : Np.ndarray) : Np.logical_and a b = Np.logical_and b a.
Proof.
  unfold Np.logical_and. apply zip_with_comm.
  intros x y. apply zip_with_comm, andb_comm.
Qed.

Lemma logical_or_comm (a b : Np.ndarray) : Np.logical_or a b = Np.logical_or b a.
Proof.
  unfold Np.logical_or. apply zip_with_comm.
  intros x y. apply zip_with_comm, orb_comm.
Qed.

Lemma same_shape_comm (a b : Np.ndarray) : Np.same_shape a b = Np.same_shape b a.
Proof.
  unfold Np.same_shape.
  destruct (list_eq_dec Nat.eq_dec (Np.row_lengths a) (Np.row_lengths b)),
           (list_eq_dec Nat.eq_dec (Np.row_lengths b) (Np.row_lengths a));
    congruence.
Qed.

(** The overlap of two masks does not depend on which one is named first. *)
Lemma iou_comm (a b : Np.ndarray) : _calculate_mask_iou a b = _calculate_mask_iou b a.
Proof.
  unfold _calculate_mask_iou.
  now rewrite same_shape_comm, logical_and_comm, logical_or_comm.
Qed.


(* ===================================================================== *)
(** * Greedy overlap suppression                                           *)
(* ===================================================================== *)

Lemma is_overlapping_true (cand : MaskData) (accepted : list MaskData) :
  is_overlapping (segmentation cand) accepted = true <->
  exists a, In a accepted /\ overlap_threshold < iou_of cand a.
Proof.
  induction accepted as [|s acc IH]; simpl.
  - split; [discriminate | intros (a & [] & _)].
  - destruct (Qle_bool _ overlap_threshold) eqn:E; simpl.
    + apply Qle_bool_iff in E. rewrite IH. split.
      * intros (a & Ha & Hlt). exists a. auto.
      * intros (a & [<-|Ha] & Hlt); [|now exists a].
        exfalso. apply (Qlt_irrefl overlap_threshold).
        eapply Qlt_le_trans; [exact Hlt | exact E].
    + split; [intros _|reflexivity].
      exists s. split; [now left|]. now apply Qle_bool_false.
Qed.

Lemma is_overlapping_false (cand : MaskData) (accepted : list MaskData) :
  is_overlapping (segmentation cand) accepted = false <->
  forall a, In a accepted -> iou_of cand a <= overlap_threshold.
Proof.
  split.
  - intros H a Ha. apply Qnot_lt_le. intros Hlt.
    assert (is_overlapping (segmentation cand) accepted = true)
      by (apply is_overlapping_true; eauto).
    congruence.
  - intros H. destruct (is_overlapping _ _) eqn:E; [|reflexivity].
    apply is_overlapping_true in E. destruct E as (a & Ha & Hlt).
    exfalso. apply (Qlt_irrefl overlap_threshold).
    eapply Qlt_le_trans; [exact Hlt | now apply H].
Qed.



(** The shortcut for lists of at most one mask returns what the loop
    would. *)
Lemma filter_overlapping_as_loop (raw : list MaskData) :
  _filter_overlapping_masks raw =
  filter_loop (py_sorted_reverse predicted_iou raw) [].
Proof.
  unfold _filter_overlapping_masks.
  destruct raw as [|x [|y l]]; reflexivity.
Qed.

Lemma filter_loop_sorted (R : MaskData -> MaskData -> Prop)
    (sorted_masks accepted : list MaskData) :
  StronglySorted R (accepted ++ sorted_masks) ->
  StronglySorted R (filter_loop sorted_masks accepted).
Proof.
  revert accepted. induction sorted_masks as [|cand rest IH]; intros acc H; simpl.
  - now rewrite app_nil_r in H.
  - destruct (is_overlapping _ acc).
    + apply IH. eapply StronglySorted_remove_mid; eauto.
    + apply IH. now rewrite <- app_assoc.
Qed.

(** The second sort, in [segment_everything], finds the list in order. *)
Lemma resort_is_identity (raw : list MaskData) :
  py_sorted_reverse predicted_iou (_filter_overlapping_masks raw) =
  _filter_overlapping_masks raw.
Proof.
  apply py_sorted_id. rewrite filter_overlapping_as_loop.
  apply filter_loop_sorted. simpl. apply py_sorted_sorted.
Qed.

(** ** Pairwise overlap of the accepted masks *)

Lemma ForallOrdPairs_snoc {A} (R : A -> A -> Prop) (l : list A) (x : A) :
  ForallOrdPairs R l -> Forall (fun a => R a x) l -> ForallOrdPairs R (l ++ [x]).
Proof.
  induction 1 as [|a l Ha Hl IH]; intros Hx; simpl.
  - repeat constructor.
  - inversion Hx; subst. constructor; [|now apply IH].
    apply Forall_app. split; [exact Ha | now constructor].
Qed.

Lemma ForallOrdPairs_firstn {A} (R : A -> A -> Prop) (n : nat) (l : list A) :
  ForallOrdPairs R l -> ForallOrdPairs R (firstn n l).
Proof.
  intros H. revert n. induction H as [|a l Ha Hl IH]; intros [|n]; simpl;
    try constructor; [|apply IH].
  rewrite Forall_forall in *. intros y Hy. apply Ha.
  rewrite <- (firstn_skipn n l). apply in_or_app. now left.
Qed.

Lemma ForallOrdPairs_nth_error {A} (R : A -> A -> Prop) (l : list A) :
  ForallOrdPairs R l ->
  forall i j a b, (i < j)%nat ->
    nth_error l i = Some a -> nth_error l j = Some b -> R a b.
Proof.
  induction 1 as [|x l Hx Hl IH]; intros i j a b Hij Hi Hj.
  - destruct i; discriminate.
  - destruct j as [|j]; [lia|]. simpl in Hj. destruct i as [|i]; simpl in Hi.
    + injection Hi as <-. rewrite Forall_forall in Hx.
      apply Hx. eapply nth_error_In; eauto.
    + apply (IH i j); auto. lia.
Qed.

Lemma filter_loop_tolerates (sorted_masks accepted : list MaskData) :
  ForallOrdPairs tolerates accepted ->
  ForallOrdPairs tolerates (filter_loop sorted_masks accepted).
Proof.
  revert accepted. induction sorted_masks as [|cand rest IH]; intros acc H; simpl.
  - exact H.
  - destruct (is_overlapping _ acc) eqn:E; [now apply IH|].
    apply IH, ForallOrdPairs_snoc; [exact H|].
    rewrite Forall_forall. intros a Ha.
    now apply (proj1 (is_overlapping_false cand acc) E).
Qed.

Lemma everything_postprocess_kept (raw : list MaskData) :
  everything_postprocess raw =
  {| masks := map segmentation (kept raw); scores := map predicted_iou (kept raw) |}.
Proof.
  unfold everything_postprocess, kept.
  now rewrite resort_is_identity, filter_overlapping_as_loop.
Qed.

Lemma kept_tolerates (raw : list MaskData) : ForallOrdPairs tolerates (kept raw).
Proof.
  apply ForallOrdPairs_firstn, filter_loop_tolerates. constructor.
Qed.

Lemma kept_length (raw : list MaskData) : (List.length (kept raw) <= 25)%nat.
Proof. unfold kept. apply firstn_le_length. Qed.

Lemma postprocess_pairwise (raw : list MaskData) (i j : nat) (mi mj : Np.ndarray) :
  i <> j ->
  nth_error (masks (everything_postprocess raw)) i = Some mi ->
  nth_error (masks (everything_postprocess raw)) j = Some mj ->
  _calculate_mask_iou mi mj <= overlap_threshold.
Proof.
  rewrite everything_postprocess_kept. simpl. intros Hij Hi Hj.
  rewrite nth_error_map in Hi, Hj.
  destruct (nth_error (kept raw) i) as [a|] eqn:Ea; [|discriminate].
  destruct (nth_error (kept raw) j) as [b|] eqn:Eb; [|discriminate].
  injection Hi as <-. injection Hj as <-.
  pose proof (ForallOrdPairs_nth_error (kept_tolerates raw)) as H.
  destruct (Nat.lt_total i j) as [Hlt|[Heq|Hgt]]; [|contradiction|].
  - rewrite iou_comm. exact (H i j a b Hlt Ea Eb).
  - exact (H j i b a Hgt Eb Ea).
Qed.


(** The result of [segment_everything] on a loaded predictor is the
    post-processed answer of the mask generator, after exactly one call. *)
Lemma segment_everything_returns (c : Collaborators) (self : SAM2Predictor)
    (img : image) (t t' : list event) (r : SegResult) :
  segment_everything c self img t = (Return r, t') ->
  exists raw, sam2_generate c img = Return raw /\
              r = everything_postprocess raw /\
              t' = t ++ [EvGenerate img].
Proof.
  unfold segment_everything. destruct (predictor self); [|discriminate].
  unfold bind, call, ret. destruct (sam2_generate c img) as [raw|e]; [|discriminate].
  intros H. injection H as <- <-. now exists raw.
Qed.

(* ===================================================================== *)
(** * Box prompts                                                          *)
(* ===================================================================== *)

Section Boxes.
Context (c : Collaborators).

(** As long as no query raises, the loop makes one query per box, in
    order, and appends the answers in that order. *)
Lemma boxes_loop_returns (img : image) (boxes : list json) :
  (forall b, In b boxes -> exists r, sam2_predict c img (box_args b) = Return r) ->
  forall all_masks all_scores t,
    boxes_loop c img boxes all_masks all_scores t =
    (Return {| masks := all_masks ++ flat_map (fun b => fst (box_answer c img b)) boxes;
               scores := all_scores ++ flat_map (fun b => snd (box_answer c img b)) boxes |},
     t ++ box_events boxes).
Proof.
  induction boxes as [|b rest IH]; intros Hok ms ss t; simpl.
  - unfold ret. now rewrite !app_nil_r.
  - destruct (Hok b (or_introl eq_refl)) as [r Hr].
    unfold bind, call at 1. unfold box_answer at 1 3. rewrite Hr.
    rewrite IH by (intros b' Hb'; apply Hok; now right).
    now rewrite <- !app_assoc.
Qed.

Lemma flat_map_singletons {A B} (f : A -> list B) (g : A -> B) (l : list A) :
  (forall a, In a l -> f a = [g a]) -> flat_map f l = map g l.
Proof.
  induction l as [|a l IH]; intros H; simpl; [reflexivity|].
  rewrite (H a (or_introl eq_refl)), IH; [reflexivity|].
  intros a' Ha'. apply H. now right.
Qed.

(** On a loaded predictor, under the model's contract for single-mask
    output (one mask and one score per query), [segment_with_boxes]
    returns the model's answers box by box, having called [set_image] and
    then [predict] once per box. *)
Lemma segment_with_boxes_returns (self : SAM2Predictor) (img : image)
    (boxes : list json) (t : list event) :
  predictor self <> None ->
  sam2_set_image c img = Return tt ->
  (forall b, In b boxes ->
     exists m s, sam2_predict c img (box_args b) = Return ([m], [s])) ->
  segment_with_boxes c self img (JList boxes) t =
    (Return {| masks := map (box_mask c img) boxes;
               scores := map (box_score c img) boxes |},
     t ++ EvSetImage img :: box_events boxes).
Proof.
  intros Hloaded Hset Hone.
  assert (Hm : forall b, In b boxes -> fst (box_answer c img b) = [box_mask c img b]).
  { intros b Hb. destruct (Hone b Hb) as (m & s & E).
    unfold box_mask, box_answer. now rewrite E. }
  assert (Hs : forall b, In b boxes -> snd (box_answer c img b) = [box_score c img b]).
  { intros b Hb. destruct (Hone b Hb) as (m & s & E).
    unfold box_score, box_answer. now rewrite E. }
  unfold segment_with_boxes. destruct (predictor self); [|contradiction].
  unfold bind at 1, call at 1. rewrite Hset.
  unfold bind at 1, lift, py_iter.
  rewrite boxes_loop_returns.
  - simpl. rewrite <- app_assoc. simpl.
    rewrite (flat_map_singletons _ (box_mask c img) boxes Hm).
    rewrite (flat_map_singletons _ (box_score c img) boxes Hs).
    reflexivity.
  - intros b Hb. destruct (Hone b Hb) as (m & s & E). eauto.
Qed.

Lemma box_answer_single (img : image) (b : json) (m : Np.ndarray) (s : Q) :
  sam2_predict c img (box_args b) = Return ([m], [s]) ->
  sam2_predict c img (box_args b) = Return ([box_mask c img b], [box_score c img b]).
Proof. intros E. unfold box_mask, box_score, box_answer. now rewrite E. Qed.

End Boxes.

(* ===================================================================== *)
(** * Base64 round trip                                                    *)
(* ===================================================================== *)

Module Base64Facts.
Import Base64.
Local Open Scope N_scope.

Lemma in_sextets (s : N) : s < 64 -> In s sextets.
Proof.
  intros Hs. unfold sextets. rewrite <- (N2Nat.id s).
  apply in_map, in_seq. lia.
Qed.

Lemma alphabet_table :
  forallb (fun s => match value (alphabet s) with
                    | Some v => (v =? s) && negb (Ascii.eqb (alphabet s) pad)
                    | None => false
                    end) sextets = true.
Proof. vm_compute. reflexivity. Qed.

Lemma value_alphabet (s : N) : s < 64 -> value (alphabet s) = Some s.
Proof.
  intros Hs. pose proof alphabet_table as H. rewrite forallb_forall in H.
  specialize (H s (in_sextets Hs)).
  destruct (value (alphabet s)) as [v|]; [|discriminate].
  apply andb_true_iff in H. destruct H as [H _].
  apply N.eqb_eq in H. now subst.
Qed.

Lemma alphabet_not_pad (s : N) : s < 64 -> Ascii.eqb (alphabet s) pad = false.
Proof.
  intros Hs. pose proof alphabet_table as H. rewrite forallb_forall in H.
  specialize (H s (in_sextets Hs)).
  destruct (value (alphabet s)) as [v|]; [|discriminate].
  apply andb_true_iff in H. destruct H as [_ H].
  now apply negb_true_iff in H.
Qed.

Lemma sextet_lt (i g : N) : sextet i g < 64.
Proof. unfold sextet. apply N.mod_lt. discriminate. Qed.

Lemma regroup_sextets (g : N) :
  g < 16777216 ->
  regroup (sextet 0 g) (sextet 1 g) (sextet 2 g) (sextet 3 g) = g.
Proof.
  intros Hg. unfold regroup, sextet.
  change (64 ^ (3 - 0)) with 262144. change (64 ^ (3 - 1)) with 4096.
  change (64 ^ (3 - 2)) with 64. change (64 ^ (3 - 3)) with 1.
  zify; Z.to_euclidean_division_equations; lia.
Qed.

Lemma octets_of_group (b0 b1 b2 : N) :
  b0 < 256 -> b1 < 256 -> b2 < 256 ->
  octet 0 (group b0 b1 b2) = b0 /\
  octet 1 (group b0 b1 b2) = b1 /\
  octet 2 (group b0 b1 b2) = b2.
Proof.
  intros H0 H1 H2. unfold octet, group.
  change (256 ^ (2 - 0)) with 65536. change (256 ^ (2 - 1)) with 256.
  change (256 ^ (2 - 2)) with 1.
  repeat split; zify; Z.to_euclidean_division_equations; lia.
Qed.

Lemma group_lt (b0 b1 b2 : N) :
  b0 < 256 -> b1 < 256 -> b2 < 256 -> group b0 b1 b2 < 16777216.
Proof. unfold group. lia. Qed.

(** A final group of one or two bytes loses nothing with its unused
    sextets dropped. *)
Lemma regroup_two_sextets (b0 : N) :
  b0 < 256 ->
  regroup (sextet 0 (group b0 0 0)) (sextet 1 (group b0 0 0)) 0 0 = group b0 0 0.
Proof.
  intros H0. unfold regroup, sextet, group.
  change (64 ^ (3 - 0)) with 262144. change (64 ^ (3 - 1)) with 4096.
  zify; Z.to_euclidean_division_equations; lia.
Qed.

Lemma regroup_three_sextets (b0 b1 : N) :
  b0 < 256 -> b1 < 256 ->
  regroup (sextet 0 (group b0 b1 0)) (sextet 1 (group b0 b1 0))
          (sextet 2 (group b0 b1 0)) 0 = group b0 b1 0.
Proof.
  intros H0 H1. unfold regroup, sextet, group.
  change (64 ^ (3 - 0)) with 262144. change (64 ^ (3 - 1)) with 4096.
  change (64 ^ (3 - 2)) with 64.
  zify; Z.to_euclidean_division_equations; lia.
Qed.

Lemma to_N_lt (b : Byte.byte) : Byte.to_N b < 256.
Proof. pose proof (Byte.to_N_bounded b). lia. Qed.

(** Three bytes at a time. *)
Lemma bytes_ind3 (P : bytes -> Prop) :
  P [] -> (forall b0, P [b0]) -> (forall b0 b1, P [b0; b1]) ->
  (forall b0 b1 b2 rest, P rest -> P (b0 :: b1 :: b2 :: rest)) ->
  forall bs, P bs.
Proof.
  intros H0 H1 H2 H3.
  fix IH 1. intros [|b0 [|b1 [|b2 rest]]].
  - exact H0.
  - apply H1.
  - apply H2.
  - apply H3, IH.
Qed.

(** Decoding what [b64encode] produced gives the bytes back. *)
Lemma b64decode_b64encode (bs : bytes) : b64decode (b64encode bs) = Some bs.
Proof.
  induction bs as [|b0|b0 b1|b0 b1 b2 rest IH] using bytes_ind3.
  - reflexivity.
  - cbn [b64encode b64decode].
    rewrite !value_alphabet by apply sextet_lt.
    rewrite Ascii.eqb_refl.
    rewrite regroup_two_sextets by apply to_N_lt.
    destruct (octets_of_group (to_N_lt b0) (eq_refl : 0 < 256) (eq_refl : 0 < 256)) as (-> & _).
    cbn. now rewrite Byte.of_to_N.
  - cbn [b64encode b64decode].
    rewrite !value_alphabet by apply sextet_lt.
    rewrite Ascii.eqb_refl. rewrite alphabet_not_pad by apply sextet_lt.
    rewrite regroup_three_sextets by apply to_N_lt.
    destruct (octets_of_group (to_N_lt b0) (to_N_lt b1) (eq_refl : 0 < 256)) as (-> & -> & _).
    cbn. now rewrite !Byte.of_to_N.
  - cbn [b64encode b64decode].
    rewrite !value_alphabet by apply sextet_lt.
    rewrite alphabet_not_pad by apply sextet_lt.
    rewrite IH.
    rewrite regroup_sextets by (apply group_lt; apply to_N_lt).
    destruct (octets_of_group (to_N_lt b0) (to_N_lt b1) (to_N_lt b2)) as (-> & -> & ->).
    cbn. now rewrite !Byte.of_to_N.
Qed.
End Base64Facts.

(* ===================================================================== *)
(** * Mask transport encoding                                              *)
(* ===================================================================== *)

Section Codec.
Context (c : Collaborators).

(** The PNG reader on the receiving side: the inverse the image library
    offers for [png_save]. *)
Context (png_load : bytes -> option (list (list Z))).

Lemma mask_bool_uint8 (mask : Np.ndarray) : mask_bool (mask_uint8 mask) = mask.
Proof.
  unfold mask_bool, mask_uint8. rewrite map_map.
  rewrite <- (map_id mask) at 2. apply map_ext. intros row.
  rewrite map_map. rewrite <- (map_id row) at 2. apply map_ext.
  now intros [].
Qed.

(** Every pixel of the 8-bit image is 255 or 0, as the mask has [True] or
    [False] there. *)
Lemma mask_uint8_pixels (mask : Np.ndarray) (i j : nat) (b : bool) :
  nth_error (nth i mask []) j = Some b ->
  nth_error (nth i (mask_uint8 mask) []) j = Some (if b then 255%Z else 0%Z).
Proof.
  unfold mask_uint8. intros H.
  change (@nil Z) with (map (fun b : bool => if b then 255%Z else 0%Z) []).
  rewrite map_nth, nth_error_map, H. reflexivity.
Qed.

(** C8.  A boolean mask survives transport: when the image library saves
    the 8-bit image of the mask (255 for [True], 0 for [False]) as PNG and
    reads that PNG back unchanged (PNG is lossless), decoding the base64
    text that [encode_mask_to_base64] returns gives the original mask. *)
Theorem encode_decode_mask_roundtrip (mask : Np.ndarray) (buffer : bytes) :
  png_save c (mask_uint8 mask) = Return buffer ->
  png_load buffer = Some (mask_uint8 mask) ->
  encode_mask_to_base64 c mask = Base64.b64encode buffer /\
  decode_mask_from_base64 png_load (encode_mask_to_base64 c mask) = Some mask.
Proof.
  intros Hsave Hload. unfold encode_mask_to_base64, decode_mask_from_base64.
  rewrite Hsave. split; [reflexivity|].
  rewrite Base64Facts.b64decode_b64encode, Hload.
  now rewrite mask_bool_uint8.
Qed.

End Codec.

(* ===================================================================== *)
(** * The segmentation handlers                                            *)
(* ===================================================================== *)

Section Handlers.
Context (c : Collaborators).

(** Without a module-level predictor both handlers answer 503 and touch
    nothing. *)
Lemma segment_image_without_predictor (file : bytes) (mode : string)
    (points boxes : option string) (t : list event) :
  segment_image c None file mode points boxes t =
  (Return (HTTPError 503 "SAM 2 model not loaded"), t).
Proof. reflexivity. Qed.

Lemma segment_image_url_without_predictor (image_url mode : string)
    (points boxes : option string) (t : list event) :
  segment_image_url c None image_url mode points boxes t =
  (Return (HTTPError 503 "SAM 2 model not loaded"), t).
Proof. reflexivity. Qed.

(** A predictor object whose [predictor] attribute is still [None] raises
    from every routing branch before any model call. *)
Lemma run_segmentation_not_loaded (p : SAM2Predictor) (img : image) (mode : string)
    (pts bxs : option json) (t : list event) :
  predictor p = None ->
  exists e, run_segmentation c p img mode pts bxs t = (Raise e, t) /\
            (mode = "everything" -> e = RuntimeError "Model not loaded").
Proof.
  intros Hp. unfold run_segmentation.
  destruct (String.eqb_spec mode "everything") as [->|Hm].
  - unfold segment_everything. rewrite Hp. eexists. split; reflexivity.
  - destruct (String.eqb mode "points" && truthy_opt pts).
    + destruct pts as [v|].
      * unfold segment_with_points. rewrite Hp. eexists. split; [reflexivity|tauto].
      * eexists. split; [reflexivity|tauto].
    + destruct (String.eqb mode "boxes" && truthy_opt bxs).
      * destruct bxs as [v|].
        -- unfold segment_with_boxes. rewrite Hp. eexists. split; [reflexivity|tauto].
        -- eexists. split; [reflexivity|tauto].
      * eexists. split; [reflexivity|tauto].
Qed.

Lemma segment_decoded_not_loaded (p : SAM2Predictor) (img : image) (mode : string)
    (points boxes : option string) (t : list event) :
  predictor p = None ->
  exists e, segment_decoded c p img mode points boxes t = (Raise e, t) /\
            (mode = "everything" ->
             (exists pts, parse_field c points = Return pts) ->
             (exists bxs, parse_field c boxes = Return bxs) ->
             e = RuntimeError "Model not loaded").
Proof.
  intros Hp. unfold segment_decoded, bind, lift.
  destruct (parse_field c points) as [pts|e1].
  - destruct (parse_field c boxes) as [bxs|e2].
    + destruct (@run_segmentation_not_loaded p img mode pts bxs t Hp) as (e & -> & He).
      exists e. split; [reflexivity|]. intros Hm _ _. now apply He.
    + exists e2. split; [reflexivity|]. intros _ _ (bxs & H). discriminate.
  - exists e1. split; [reflexivity|]. intros _ (pts & H). discriminate.
Qed.

(** While the predictor object exists but has loaded nothing, every
    [/segment] request is answered with status 500, the model untouched;
    for a decodable image in [everything] mode the detail is the
    predictor's own ["Model not loaded"]. *)
Lemma segment_image_not_loaded (p : SAM2Predictor) (file : bytes) (mode : string)
    (points boxes : option string) (t : list event) :
  predictor p = None ->
  exists detail,
    segment_image c (Some p) file mode points boxes t = (Return (HTTPError 500 detail), t) /\
    (forall img, image_open c file = Return img -> mode = "everything" ->
       (exists pts, parse_field c points = Return pts) ->
       (exists bxs, parse_field c boxes = Return bxs) ->
       detail = "Model not loaded").
Proof.
  intros Hp. unfold segment_image, try_except, bind, lift, process_image_data.
  destruct (image_open c file) as [img|e0].
  - destruct (@segment_decoded_not_loaded p img mode points boxes t Hp) as (e & -> & He).
    eexists. split; [reflexivity|].
    intros img' Hi Hm H1 H2. rewrite (He Hm H1 H2). reflexivity.
  - eexists. split; [reflexivity|]. intros img' Hi. discriminate.
Qed.

(** C5.  Undecodable upload: [process_image_data] raises
    [HTTPException(400, "Invalid image data")], and the [except Exception]
    clause of [segment_image] turns it into status 500 whose detail is the
    text of that exception; the model is not called. *)
Theorem segment_image_undecodable_is_500 (p : SAM2Predictor) (file : bytes)
    (mode : string) (points boxes : option string) (t : list event) (e : exn) :
  image_open c file = Raise e ->
  process_image_data c file = Raise (HTTPException 400 "Invalid image data") /\
  segment_image c (Some p) file mode points boxes t =
    (Return (HTTPError 500 (http_exception_str c 400 "Invalid image data")), t).
Proof.
  intros H. unfold segment_image, try_except, bind, lift, process_image_data.
  rewrite H. split; reflexivity.
Qed.

Lemma run_segmentation_invalid (p : SAM2Predictor) (img : image) (mode : string)
    (pts bxs : option json) (t : list event) :
  invalid_combination mode pts ->
  run_segmentation c p img mode pts bxs t =
  (Raise (ValueError ("Invalid segmentation mode: " ++ mode)%string), t).
Proof.
  unfold run_segmentation. intros [[-> Hpts]|(H1 & H2 & H3)].
  - rewrite Hpts. reflexivity.
  - destruct (String.eqb_spec mode "everything"); [contradiction|].
    destruct (String.eqb_spec mode "points"); [contradiction|].
    destruct (String.eqb_spec mode "boxes"); [contradiction|].
    reflexivity.
Qed.

(** C6, as the code has it.  A request with an invalid mode/prompt
    combination that reaches the router (the predictor object exists, the
    image decodes, the prompt fields parse) fails with the router's
    [ValueError], which the handler reports as status 500 with the detail
    ["Invalid segmentation mode: <mode>"]; no model entry point is
    called. *)
Theorem segment_image_invalid_combination_is_500 (p : SAM2Predictor) (file : bytes)
    (mode : string) (points boxes : option string) (t : list event)
    (img : image) (pts bxs : option json) :
  image_open c file = Return img ->
  parse_field c points = Return pts ->
  parse_field c boxes = Return bxs ->
  invalid_combination mode pts ->
  segment_image c (Some p) file mode points boxes t =
    (Return (HTTPError 500 ("Invalid segmentation mode: " ++ mode)%string), t).
Proof.
  intros Hi Hp Hb Hinv.
  unfold segment_image, try_except, bind, lift, process_image_data.
  rewrite Hi. unfold segment_decoded, bind, lift. rewrite Hp, Hb.
  rewrite (@run_segmentation_invalid p img mode pts bxs t Hinv). reflexivity.
Qed.

(** ** Building the response *)

Lemma encode_loop_length (k : nat) (ms : list Np.ndarray) (ss : list Q) :
  List.length (encode_loop c k ms ss) = List.length ms.
Proof. revert k. induction ms; intros k; simpl; auto. Qed.

Lemma encode_loop_nth (k i : nat) (ms : list Np.ndarray) (ss : list Q) (m : Np.ndarray) :
  nth_error ms i = Some m ->
  nth_error (encode_loop c k ms ss) i = Some (entry_of c (k + i) m ss).
Proof.
  revert k i. induction ms as [|m0 ms IH]; intros k [|i] H; simpl in *;
    try discriminate.
  - injection H as <-. now rewrite Nat.add_0_r.
  - rewrite (IH (S k) i H). f_equal. f_equal. lia.
Qed.

Lemma segment_decoded_returns (p : SAM2Predictor) (img : image) (mode : string)
    (points boxes : option string) (pts bxs : option json)
    (t t' : list event) (r : SegResult) :
  parse_field c points = Return pts ->
  parse_field c boxes = Return bxs ->
  run_segmentation c p img mode pts bxs t = (Return r, t') ->
  segment_decoded c p img mode points boxes t =
  (Return (JSON200 {| body_success := true;
                      body_mode := mode;
                      body_num_masks := List.length (masks r);
                      body_masks := encode_loop c 0 (masks r) (scores r);
                      body_image_shape := image_shape img |}), t').
Proof.
  intros Hp Hb Hr. unfold segment_decoded, bind, lift, ret.
  rewrite Hp, Hb, Hr. now rewrite encode_loop_length.
Qed.

(** C10.  When the segmentation returns (possibly with fewer scores than
    masks), both handlers succeed with HTTP 200 and one entry per mask;
    the entry of a mask at an index [i] that has no score carries id [i],
    the encoded mask, the pixel count, and the score [0]. *)
Theorem unscored_masks_are_kept_with_score_zero (p : SAM2Predictor)
    (file : bytes) (image_url mode : string) (points boxes : option string)
    (img : image) (pts bxs : option json) (t t' : list event) (r : SegResult) :
  parse_field c points = Return pts ->
  parse_field c boxes = Return bxs ->
  run_segmentation c p img mode pts bxs t = (Return r, t') ->
  exists body,
    (image_open c file = Return img ->
     segment_image c (Some p) file mode points boxes t = (Return (JSON200 body), t')) /\
    (forall content, requests_get c image_url = Return content ->
     image_open c content = Return img ->
     segment_image_url c (Some p) image_url mode points boxes t = (Return (JSON200 body), t')) /\
    body_success body = true /\
    body_num_masks body = List.length (masks r) /\
    List.length (body_masks body) = List.length (masks r) /\
    forall i m, nth_error (masks r) i = Some m ->
      (List.length (scores r) <= i)%nat ->
      nth_error (body_masks body) i =
        Some {| entry_id := i;
                entry_mask := encode_mask_to_base64 c m;
                entry_score := 0;
                entry_area := Z.of_nat (Np.sum m) |}.
Proof.
  intros Hp Hb Hr. eexists. split; [|split; [|split; [|split; [|split]]]].
  - intros Hi. unfold segment_image, try_except, bind, lift, process_image_data.
    rewrite Hi. rewrite (@segment_decoded_returns p img mode points boxes pts bxs t t' r Hp Hb Hr). reflexivity.
  - intros content Hg Hi.
    unfold segment_image_url, try_except, bind, lift, process_image_data.
    rewrite Hg, Hi. rewrite (@segment_decoded_returns p img mode points boxes pts bxs t t' r Hp Hb Hr). reflexivity.
  - reflexivity.
  - reflexivity.
  - simpl. apply encode_loop_length.
  - intros i m Hm Hlen. simpl. rewrite (@encode_loop_nth 0 i (masks r) (scores r) m Hm).
    unfold entry_of. simpl.
    destruct (Nat.ltb_spec i (List.length (scores r))); [lia|reflexivity].
Qed.

(** ** Box prompts through the handler *)

Lemma run_segmentation_boxes (p : SAM2Predictor) (img : image) (pts : option json)
    (boxes : list json) (t : list event) :
  boxes <> [] ->
  run_segmentation c p img "boxes" pts (Some (JList boxes)) t =
  segment_with_boxes c p img (JList boxes) t.
Proof.
  intros Hne. unfold run_segmentation. simpl.
  destruct boxes; [contradiction | reflexivity].
Qed.

(** A box list that parses to no box at all never reaches
    [segment_with_boxes]: the router rejects the request. *)
Lemma run_segmentation_no_boxes (p : SAM2Predictor) (img : image) (pts : option json)
    (t : list event) :
  run_segmentation c p img "boxes" pts (Some (JList [])) t =
  (Raise (ValueError "Invalid segmentation mode: boxes"), t).
Proof. reflexivity. Qed.

(** C3.  Box prompts on a loaded predictor, for any list of [k] boxes.
    [segment_with_boxes] calls [set_image] and then queries the model
    exactly once per box, in input order, each query carrying that box
    alone with [multimask_output=False]; when every such query answers
    with one mask and one score (the model's contract for single-mask
    output), the result holds exactly [k] masks and [k] scores, the [i]-th
    being the model's answer for the [i]-th box.  A [/segment] request in
    [boxes] mode whose box field parses to these boxes ([k >= 1]) is
    answered with HTTP 200 and exactly [k] entries, the [i]-th built from
    the answer for the [i]-th box. *)
Theorem segment_with_boxes_one_mask_per_box (self : SAM2Predictor) (img : image)
    (boxes : list json) (t : list event) :
  predictor self <> None ->
  sam2_set_image c img = Return tt ->
  (forall b, In b boxes ->
     exists m s, sam2_predict c img (box_args b) = Return ([m], [s])) ->
  exists r,
    segment_with_boxes c self img (JList boxes) t =
      (Return r, t ++ EvSetImage img :: box_events boxes) /\
    List.length (box_events boxes) = List.length boxes /\
    (forall i b, nth_error boxes i = Some b ->
       nth_error (box_events boxes) i =
         Some (EvPredict {| point_coords := None; point_labels := None;
                            box := Some b; multimask_output := false |})) /\
    List.length (masks r) = List.length boxes /\
    List.length (scores r) = List.length boxes /\
    (forall i b, nth_error boxes i = Some b ->
       sam2_predict c img (box_args b) = Return ([box_mask c img b], [box_score c img b]) /\
       nth_error (masks r) i = Some (box_mask c img b) /\
       nth_error (scores r) i = Some (box_score c img b)) /\
    (boxes <> [] ->
     forall file points boxes_field pts,
       image_open c file = Return img ->
       parse_field c points = Return pts ->
       parse_field c boxes_field = Return (Some (JList boxes)) ->
       exists body,
         segment_image c (Some self) file "boxes" points boxes_field t =
           (Return (JSON200 body), t ++ EvSetImage img :: box_events boxes) /\
         body_num_masks body = List.length boxes /\
         List.length (body_masks body) = List.length boxes /\
         forall i b, nth_error boxes i = Some b ->
           nth_error (body_masks body) i =
             Some {| entry_id := i;
                     entry_mask := encode_mask_to_base64 c (box_mask c img b);
                     entry_score := box_score c img b;
                     entry_area := Z.of_nat (Np.sum (box_mask c img b)) |}).
Proof.
  intros Hloaded Hset Hone.
  pose proof (@segment_with_boxes_returns c self img boxes t Hloaded Hset Hone) as Hret.
  eexists. split; [exact Hret|]. cbn [masks scores].
  split; [apply length_map|].
  split.
  { intros i b Hi. unfold box_events. rewrite nth_error_map, Hi. reflexivity. }
  split; [apply length_map|]. split; [apply length_map|].
  split.
  { intros i b Hi. rewrite !nth_error_map, Hi. simpl.
    split; [|split; reflexivity].
    destruct (Hone b (nth_error_In _ _ Hi)) as (m & s & E).
    exact (@box_answer_single c img b m s E). }
  intros Hne file points boxes_field pts Hi Hp Hb.
  eexists. split; [|split; [|split]].
  - unfold segment_image, try_except, bind, lift, process_image_data.
    rewrite Hi.
    rewrite (@segment_decoded_returns self img "boxes" points boxes_field pts
               (Some (JList boxes)) t _ _ Hp Hb
               (eq_trans (@run_segmentation_boxes self img pts boxes t Hne) Hret)).
    reflexivity.
  - cbn [body_num_masks masks]. apply length_map.
  - cbn [body_masks masks scores]. rewrite encode_loop_length. apply length_map.
  - intros i b Hnth. cbn [body_masks masks scores].
    rewrite (@encode_loop_nth 0 i _ _ (box_mask c img b))
      by (rewrite nth_error_map, Hnth; reflexivity).
    unfold entry_of. cbn [Nat.add]. f_equal. f_equal.
    rewrite length_map.
    assert (Hlt : (i < List.length boxes)%nat)
      by (apply nth_error_Some; congruence).
    destruct (Nat.ltb_spec i (List.length boxes)); [|lia].
    apply nth_error_nth. rewrite nth_error_map, Hnth. reflexivity.
Qed.

End Handlers.

(* ===================================================================== *)
(** * Health and loading                                                   *)
(* ===================================================================== *)

Section LifecycleFacts.
Context (c : Collaborators) (env : LoadEnv).

(** Whatever the module-level predictor holds, [GET /health] answers
    with HTTP 200, never with an error status; the body says ["healthy"],
    [service_running] and a boolean [model_loaded] that is [true] exactly
    when the model object has been built: [true] with the message
    ["Service ready"] when inference is ready, [false] with the message
    ["Model loading in progress..."] when nothing is loaded. *)
Lemma health_check_body (g : option SAM2Predictor) :
  exists body,
    health_check c g = JSON200 body /\
    status_of (health_check c g) = 200%Z /\
    hs_status body = "healthy" /\
    hs_service_running body = true /\
    (hs_model_loaded body = true <-> model_built g) /\
    (inference_ready g ->
     hs_model_loaded body = true /\ hs_message body = "Service ready") /\
    (nothing_loaded g ->
     hs_model_loaded body = false /\ hs_message body = "Model loading in progress...").
Proof.
  unfold health_check, health_try. eexists.
  split; [reflexivity|]. split; [reflexivity|]. split; [reflexivity|].
  split; [reflexivity|]. simpl. split; [|split].
  - split.
    + destruct g as [p|]; [|discriminate].
      destruct (model p) as [m|] eqn:E; [|discriminate].
      intros _. now exists p, m.
    + intros (p & m & -> & ->). reflexivity.
  - intros (p & m & ip & -> & -> & _). split; reflexivity.
  - intros [->|(p & -> & ->)]; split; reflexivity.
Qed.

(** ** Two calls of [/load-model] *)

Lemma run_cons (who : caller) (schedule : list caller) (s : System) :
  run c env (who :: schedule) s = run c env schedule (resume c env s who).
Proof. reflexivity. Qed.

Lemma failure_is_not_success (e : exn) : reply_status (failure c e) <> "success".
Proof. discriminate. Qed.

(** A call that enters with the model built replies at once, and loads
    nothing. *)
Lemma step_entered_when_built (w : World) :
  model_built (w_predictor w) ->
  step_task c env w Entered = (w, Replied (success "Model already loaded")).
Proof.
  intros (p & m & Hp & Hm). destruct w as [g files n]. simpl in *. subst g.
  rewrite Hm. reflexivity.
Qed.

(** [load_model] returns normally only after storing the model and the
    image predictor. *)
Lemma load_model_build_returns (w w' : World) (self : SAM2Predictor) (cfg : ModelConfig)
    (r : result unit) :
  load_model_build env w self cfg = (w', r) ->
  w_loads w' = w_loads w /\
  w_predictor w' <> None /\
  (reply_status (reply_of c r) = "success" -> inference_ready (w_predictor w')).
Proof.
  unfold load_model_build, load_model_finish.
  destruct (build_sam2 env _ _ _) as [m|e].
  - destruct (make_image_predictor env m) as [ip|e]; intros H;
      injection H as <- <-; simpl; (split; [reflexivity|]);
      (split; [discriminate|]).
    + intros _. eexists _, m, ip. repeat split.
    + intros H. now apply failure_is_not_success in H.
  - intros H. injection H as <- <-. simpl. split; [reflexivity|].
    split; [discriminate|].
    intros H. now apply failure_is_not_success in H.
Qed.

(** Entering [load_model] counts one load and leaves the predictor object
    in place. *)
Lemma load_model_enter_counts (w w' : World) (self : SAM2Predictor) (st : load_state) :
  load_model_enter env w self = (w', st) ->
  w_predictor w <> None ->
  w_loads w' = S (w_loads w) /\
  w_predictor w' <> None /\
  (forall r, st = Finished r ->
     reply_status (reply_of c r) = "success" -> inference_ready (w_predictor w')).
Proof.
  unfold load_model_enter. intros H Hp.
  destruct (load_model_begin env (w_files w) self) as [[cfg [|]]|e].
  - destruct (load_model_build env _ self cfg) as [w2 r2] eqn:E.
    injection H as <- <-. apply load_model_build_returns in E.
    destruct E as (E1 & E2 & E3). simpl in E1.
    split; [exact E1|]. split; [exact E2|].
    intros r Hr. injection Hr as <-. exact E3.
  - injection H as <- <-. simpl. split; [reflexivity|]. split; [exact Hp|].
    intros r Hr. discriminate.
  - injection H as <- <-. simpl. split; [reflexivity|]. split; [exact Hp|].
    intros r Hr. injection Hr as <-. intros Hs.
    now apply failure_is_not_success in Hs.
Qed.

Lemma load_model_resume_returns (w w' : World) (cfg : ModelConfig) (r : result unit) :
  load_model_resume env w cfg = (w', r) ->
  w_predictor w <> None ->
  w_loads w' = w_loads w /\
  w_predictor w' <> None /\
  (reply_status (reply_of c r) = "success" -> inference_ready (w_predictor w')).
Proof.
  unfold load_model_resume. intros H Hp.
  destruct (download env (url cfg) (checkpoint cfg)) as [u|e].
  - destruct (w_predictor w) as [self|] eqn:Ep; [|contradiction].
    apply load_model_build_returns in H. exact H.
  - injection H as <- <-. split; [reflexivity|]. split; [exact Hp|].
    intros Hs. now apply failure_is_not_success in Hs.
Qed.

(** The first stretch of a call that finds nothing loaded. *)
Lemma step_entered_when_unloaded (w : World) :
  unloaded w ->
  exists w1 t1, step_task c env w Entered = (w1, t1) /\
    ((exists r, t1 = Replied r /\
        (reply_status r = "success" ->
         w_loads w1 = S (w_loads w) /\ inference_ready (w_predictor w1))) \/
     (exists cfg, t1 = Downloading cfg /\ w_predictor w1 <> None /\
        w_loads w1 = S (w_loads w))).
Proof.
  intros Hu. unfold step_task.
  assert (Hnew : forall p, (match w_predictor w with
                            | Some p => Return p
                            | None => new_SAM2Predictor env
                            end) = Return p -> model p = None).
  { intros p. destruct Hu as [->|(p0 & -> & Hm)].
    - unfold new_SAM2Predictor. destruct (mkdir_models_dir env); [|discriminate].
      intros H. injection H as <-. reflexivity.
    - intros H. injection H as <-. exact Hm. }
  destruct (match w_predictor w with
            | Some p => Return p
            | None => new_SAM2Predictor env
            end) as [p|e].
  - rewrite (Hnew p eq_refl).
    destruct (load_model_enter env _ p) as [w2 [cfg|r]] eqn:E;
      apply load_model_enter_counts in E; try discriminate;
      destruct E as (E1 & E2 & E3); simpl in E1.
    + eexists _, _. split; [reflexivity|]. right. now exists cfg.
    + eexists _, _. split; [reflexivity|]. left. eexists. split; [reflexivity|].
      intros Hs. split; [exact E1 | now apply (E3 r)].
  - eexists _, _. split; [reflexivity|]. left. eexists. split; [reflexivity|].
    intros H. now apply failure_is_not_success in H.
Qed.

(** One call run alone, from a world with nothing loaded: it replies
    within two stretches; a success reply means that [load_model] was
    entered once and the model is ready. *)
Lemma lone_call (w : World) :
  unloaded w ->
  exists w2 r,
    run c env [First; First] (two_callers w) =
      {| world := w2; first_call := Replied r; second_call := Entered |} /\
    (reply_status r = "success" ->
     w_loads w2 = S (w_loads w) /\ inference_ready (w_predictor w2)).
Proof.
  intros Hu.
  destruct (step_entered_when_unloaded Hu)
    as (w1 & t1 & E1 & [(r & -> & Hr)|(cfg & -> & Hp & Hl)]);
    unfold run, two_callers; cbn [fold_left]; unfold resume at 2;
    cbn [world first_call second_call]; rewrite E1; simpl.
  - exists w1, r. split; [reflexivity | exact Hr].
  - destruct (load_model_resume env w1 cfg) as [w2 r] eqn:E.
    apply load_model_resume_returns in E; [|exact Hp].
    destruct E as (E1' & _ & E3).
    exists w2, (reply_of c r). split; [reflexivity|].
    intros Hs. split; [lia | now apply E3].
Qed.

(** Once the first call has replied and the model is built, nothing that
    follows enters [load_model] again. *)
Lemma after_first_success (schedule : list caller) (w : World) (r1 : LoadReply) (t2 : task) :
  model_built (w_predictor w) ->
  t2 = Entered \/ t2 = Replied (success "Model already loaded") ->
  let s := run c env schedule {| world := w; first_call := Replied r1; second_call := t2 |} in
  world s = w /\ first_call s = Replied r1 /\
  (second_call s = Entered \/ second_call s = Replied (success "Model already loaded")) /\
  (In Second schedule -> second_call s = Replied (success "Model already loaded")).
Proof.
  revert t2. induction schedule as [|who rest IH]; intros t2 Hb Ht2.
  - simpl. repeat split; auto. intros [].
  - rewrite run_cons. destruct who; simpl resume.
    + destruct (IH t2 Hb Ht2) as (H1 & H2 & H3 & H4).
      repeat split; auto. intros [Hin|Hin]; [discriminate | auto].
    + assert (E : step_task c env w t2 = (w, Replied (success "Model already loaded"))).
      { destruct Ht2 as [->| ->]; [now apply step_entered_when_built | reflexivity]. }
      rewrite E.
      destruct (IH (Replied (success "Model already loaded")) Hb (or_intror eq_refl))
        as (H1 & H2 & H3 & H4).
      repeat split; auto. intros _.
      destruct rest as [|x rest']; [reflexivity|].
      destruct H3 as [H3|H3]; [|exact H3].
      (* the second call has replied, and a reply is final *)
      clear - H3. exfalso. revert H3.
      generalize (x :: rest'). intros l.
      assert (G : forall l w0 r0 r, second_call (run c env l
                 {| world := w0; first_call := Replied r0; second_call := Replied r |})
                 <> Entered).
      { clear. induction l as [|y l IHl]; intros w0 r0 r; [discriminate|].
        rewrite run_cons. destruct y; simpl resume; apply IHl. }
      apply G.
Qed.

(** C9, as the code has it.  Two calls of [/load-model] made while nothing
    is loaded enter [load_model] exactly once when they do not overlap and
    the first succeeds: if the first call has run to a success reply
    before the second is resumed, then, however the rest is scheduled,
    [load_model] has been entered once, and the second call, once it has
    run, has replied ["Model already loaded"]. *)
Theorem sequential_calls_load_once (w : World) (schedule : list caller) (r1 : LoadReply) :
  unloaded w ->
  first_call (run c env [First; First] (two_callers w)) = Replied r1 ->
  reply_status r1 = "success" ->
  let s := run c env ([First; First] ++ schedule) (two_callers w) in
  w_loads (world s) = S (w_loads w) /\
  inference_ready (w_predictor (world s)) /\
  first_call s = Replied r1 /\
  (In Second schedule -> second_call s = Replied (success "Model already loaded")).
Proof.
  intros Hu Hfirst Hs s.
  destruct (lone_call Hu) as (w2 & r & E & Hr).
  rewrite E in Hfirst. simpl in Hfirst. injection Hfirst as ->.
  destruct (Hr Hs) as [Hl Hready].
  assert (Hb : model_built (w_predictor w2)).
  { destruct Hready as (p & m & ip & H1 & H2 & _). now exists p, m. }
  subst s. unfold run in *. rewrite fold_left_app. fold (run c env [First; First]).
  unfold run in E. rewrite E.
  destruct (@after_first_success schedule w2 r1 Entered Hb (or_introl eq_refl))
    as (H1 & H2 & _ & H4).
  unfold run in H1, H2, H4. rewrite H1. repeat split; auto.
Qed.

(** ** What the state can look like *)

(** A stretch of the handler never takes the predictor object away. *)
Lemma step_task_keeps_predictor (w w' : World) (t t' : task) :
  step_task c env w t = (w', t') ->
  w_predictor w <> None -> w_predictor w' <> None.
Proof.
  destruct t as [|cfg|r]; simpl.
  - destruct (w_predictor w) as [p|] eqn:Ep; [|intros _ H; now contradiction H].
    destruct (model p).
    + intros H _. injection H as <- _. discriminate.
    + destruct (load_model_enter env _ p) as [w2 [cfg|r]] eqn:E;
        apply load_model_enter_counts in E; try discriminate;
        intros H _; injection H as <- _; apply E.
  - destruct (load_model_resume env w cfg) as [w1 r] eqn:E.
    intros H Hp. injection H as <- _.
    now apply (@load_model_resume_returns w w1 cfg r E).
  - intros H. injection H as <- _. auto.
Qed.

(** A call is suspended in its download only with the predictor object in
    place. *)
Lemma step_task_downloading (w w' : World) (t : task) (cfg : ModelConfig) :
  step_task c env w t = (w', Downloading cfg) -> w_predictor w' <> None.
Proof.
  destruct t as [|cfg0|r]; simpl.
  - destruct (match w_predictor w with
              | Some p => Return p
              | None => new_SAM2Predictor env
              end) as [p|e]; [|discriminate].
    destruct (model p); [discriminate|].
    destruct (load_model_enter env _ p) as [w2 [cfg1|r]] eqn:E;
      [|discriminate].
    apply load_model_enter_counts in E; [|discriminate].
    intros H. injection H as <- _. apply E.
  - destruct (load_model_resume env w cfg0). discriminate.
  - discriminate.
Qed.

Lemma resume_suspended (s : System) (who : caller) :
  (suspended s -> w_predictor (world s) <> None) ->
  suspended (resume c env s who) ->
  w_predictor (world (resume c env s who)) <> None.
Proof.
  intros Hinv. destruct who; unfold resume.
  - destruct (step_task c env (world s) (first_call s)) as [w' t'] eqn:E.
    unfold suspended. cbn [world first_call second_call].
    intros [(cfg & ->)|(cfg & H)].
    + eapply step_task_downloading; eauto.
    + eapply step_task_keeps_predictor; eauto.
      apply Hinv. right. eauto.
  - destruct (step_task c env (world s) (second_call s)) as [w' t'] eqn:E.
    unfold suspended. cbn [world first_call second_call].
    intros [(cfg & H)|(cfg & ->)].
    + eapply step_task_keeps_predictor; eauto.
      apply Hinv. left. eauto.
    + eapply step_task_downloading; eauto.
Qed.

(** However two calls are interleaved, a suspended call finds the
    predictor object when it resumes: the branch of [step_task] for a
    missing object is never taken. *)
Lemma suspended_has_predictor (schedule : list caller) (w : World) :
  suspended (run c env schedule (two_callers w)) ->
  w_predictor (world (run c env schedule (two_callers w))) <> None.
Proof.
  assert (G : forall l s, (suspended s -> w_predictor (world s) <> None) ->
                suspended (run c env l s) ->
                w_predictor (world (run c env l s)) <> None).
  { induction l as [|who l IH]; intros s Hs; [exact Hs|].
    rewrite run_cons. apply IH. now apply resume_suspended. }
  apply G. intros [(cfg & H)|(cfg & H)]; discriminate.
Qed.

(** If constructing the image predictor around a built model never fails,
    "model built" and "inference ready" stay the same thing. *)
Lemma step_task_built_is_ready (w w' : World) (t t' : task) :
  (forall m, exists ip, make_image_predictor env m = Return ip) ->
  step_task c env w t = (w', t') ->
  (model_built (w_predictor w) -> inference_ready (w_predictor w)) ->
  model_built (w_predictor w') -> inference_ready (w_predictor w').
Proof.
  intros Hctor.
  assert (Hbuild : forall w0 self cfg w1 r,
            load_model_build env w0 self cfg = (w1, r) ->
            (model_built (Some self) -> inference_ready (Some self)) ->
            model_built (w_predictor w1) -> inference_ready (w_predictor w1)).
  { intros w0 self cfg w1 r. unfold load_model_build, load_model_finish.
    destruct (build_sam2 env _ _ _) as [m|e].
    - destruct (Hctor m) as [ip ->]. intros H. injection H as <- _. simpl.
      intros _ _. eexists _, m, ip. repeat split.
    - intros H. injection H as <- _. simpl. auto. }
  assert (Henter : forall w0 self w1 st,
            load_model_enter env w0 self = (w1, st) ->
            w_predictor w0 = Some self ->
            (model_built (Some self) -> inference_ready (Some self)) ->
            model_built (w_predictor w1) -> inference_ready (w_predictor w1)).
  { intros w0 self w1 st. unfold load_model_enter.
    destruct (load_model_begin env (w_files w0) self) as [[cfg [|]]|e].
    - destruct (load_model_build env _ self cfg) as [w2 r2] eqn:E.
      intros H _. injection H as <- _. eapply Hbuild; eauto.
    - intros H Hp. injection H as <- _. simpl. now rewrite Hp.
    - intros H Hp. injection H as <- _. simpl. now rewrite Hp. }
  assert (Hnone : forall p, model p = None ->
            model_built (Some p) -> inference_ready (Some p)).
  { intros p Hm (p0 & m & Hp0 & Hm0). injection Hp0 as <-. congruence. }
  destruct t as [|cfg|r]; simpl.
  - destruct (w_predictor w) as [p|] eqn:Ep.
    + destruct (model p) eqn:Em.
      * intros H. injection H as <- _. simpl. auto.
      * destruct (load_model_enter env _ p) as [w2 [cfg|r]] eqn:E;
          intros H _; injection H as <- _;
          (eapply Henter; [exact E | reflexivity | now apply Hnone]).
    + unfold new_SAM2Predictor. destruct (mkdir_models_dir env) as [u|e].
      * cbn [model].
        destruct (load_model_enter env _ _) as [w2 [cfg|r]] eqn:E;
          intros H _; injection H as <- _;
          (eapply Henter; [exact E | reflexivity | now apply Hnone]).
      * intros H. injection H as <- _. rewrite Ep. auto.
  - unfold load_model_resume.
    destruct (download env (url cfg) (checkpoint cfg)).
    + destruct (w_predictor w) as [self|] eqn:Ep.
      * destruct (load_model_build env _ self cfg) as [w1 r1] eqn:E.
        intros H Hw. injection H as <- _. eapply Hbuild; eauto.
      * intros H _. injection H as <- _. simpl.
        intros (p0 & m & Hp0 & _). discriminate.
    + intros H. injection H as <- _. rewrite ?Ep. auto.
  - intros H. injection H as <- _. auto.
Qed.

End LifecycleFacts.

(* ===================================================================== *)
(** * Concrete runs                                                        *)
(* ===================================================================== *)

Section Runs.
Import Demo.

(** The predictor object as [startup_event] leaves it when the [sam2]
    package is missing: constructed, nothing loaded. *)
Lemma startup_without_sam2 :
  startup_event env_without_sam2 initial_world =
  {| w_predictor := Some constructed; w_files := []; w_loads := 1 |}.
Proof. reflexivity. Qed.

(** The post-processing on four candidates: the best one first, its
    near-duplicate and its exact duplicate dropped, the tie between the
    two others kept in input order. *)
Example everything_postprocess_candidates :
  py_sorted_reverse predicted_iou candidates =
    [ {| segmentation := top_row; predicted_iou := 0.9 |};
      {| segmentation := top_left; predicted_iou := 0.7 |};
      {| segmentation := bottom_row; predicted_iou := 0.7 |};
      {| segmentation := top_row; predicted_iou := 0.7 |} ] /\
  everything_postprocess candidates =
    {| masks := [top_row; top_left; bottom_row]; scores := [0.9; 0.7; 0.7] |} /\
  _calculate_mask_iou top_row top_left == 1 # 2 /\
  _calculate_mask_iou top_row bottom_row == 0 /\
  _calculate_mask_iou nothing nothing == 0.
Proof. repeat split; vm_compute; reflexivity. Qed.

Example everything_postprocess_near_duplicate :
  let three : Np.ndarray := [[true; true; true; false]] in
  let two : Np.ndarray := [[true; true; false; false]] in
  _calculate_mask_iou two three == 2 # 3 /\
  everything_postprocess [ {| segmentation := two; predicted_iou := 0.8 |};
                           {| segmentation := three; predicted_iou := 0.9 |} ] =
    {| masks := [three]; scores := [0.9] |}.
Proof. split; vm_compute; reflexivity. Qed.

(** Witness for C3: two boxes, two masks, in order. *)
Lemma segment_with_boxes_one_mask_per_box_witness :
  predictor loaded <> None /\
  sam2_set_image c img = Return tt /\
  (exists r,
     segment_with_boxes c loaded img (JList two_boxes) [] =
       (Return r, [] ++ EvSetImage img :: box_events two_boxes) /\
     List.length (masks r) = 2%nat /\
     nth_error (masks r) 0 = Some top_left /\
     nth_error (masks r) 1 = Some bottom_row) /\
  (exists body,
     segment_image c (Some loaded) upload "boxes" None
       (Some "[[10,10,20,20],[30,30,40,40]]") [] =
       (Return (JSON200 body), [] ++ EvSetImage img :: box_events two_boxes) /\
     body_num_masks body = 2%nat).
Proof.
  split; [discriminate|]. split; [reflexivity|].
  destruct (@segment_with_boxes_one_mask_per_box c loaded img two_boxes [])
    as (r & H1 & _ & _ & H4 & _ & H6 & H7).
  - discriminate.
  - reflexivity.
  - intros b [<-|[<-|[]]]; eexists _, _; reflexivity.
  - split.
    + exists r. split; [exact H1|]. split; [exact H4|].
      split; [exact (proj1 (proj2 (H6 0%nat _ eq_refl)))
             | exact (proj1 (proj2 (H6 1%nat _ eq_refl)))].
    + destruct (H7 ltac:(discriminate) upload None
                  (Some "[[10,10,20,20],[30,30,40,40]]") None
                  eq_refl eq_refl eq_refl) as (body & B1 & B2 & _).
      exists body. split; [exact B1 | exact B2].
Defined.

(** C4.  The state after a start-up whose load failed (here: the [sam2]
    package is missing) has a predictor object with nothing loaded; in
    that state [/segment] answers every request with status 500, not 503,
    and a well-formed [everything] request gets the detail
    ["Model not loaded"].  The 503 guard only covers the state in which no
    predictor object exists. *)
Theorem segment_after_failed_load_is_500 (c0 : Collaborators) (file : bytes)
    (mode : string) (points boxes : option string) (t : list event) :
  let g := w_predictor (startup_event env_without_sam2 initial_world) in
  nothing_loaded g /\
  (exists detail,
     segment_image c0 g file mode points boxes t = (Return (HTTPError 500 detail), t)) /\
  segment_image c g upload "everything" None None [] =
    (Return (HTTPError 500 "Model not loaded"), []) /\
  segment_image c0 None file mode points boxes t =
    (Return (HTTPError 503 "SAM 2 model not loaded"), t).
Proof.
  rewrite startup_without_sam2. cbn [w_predictor]. repeat split.
  - right. now exists constructed.
  - destruct (@segment_image_not_loaded c0 constructed file mode points boxes t eq_refl)
      as (detail & H & _).
    now exists detail.
Qed.

(** Witness for C5. *)
Lemma segment_image_undecodable_is_500_witness :
  image_open c [] = Raise (OtherError "cannot identify image file") /\
  process_image_data c [] = Raise (HTTPException 400 "Invalid image data") /\
  segment_image c (Some loaded) [] "everything" None None [] =
    (Return (HTTPError 500 "400: Invalid image data"), []).
Proof.
  split; [reflexivity|].
  apply (@segment_image_undecodable_is_500 c loaded [] "everything" None None []
           (OtherError "cannot identify image file")).
  reflexivity.
Defined.

(** C7.  [GET /health] answers HTTP 200 in every state, with a boolean
    [model_loaded] that is [true] exactly when [predictor.model] is set.
    Inference, however, needs [predictor.predictor]: in the state
    [load_model] leaves behind when [build_sam2] returned and
    [SAM2ImagePredictor(model)] raised (reached here by [startup_event]),
    the model is set and the image predictor is not.  There [/health]
    reports [model_loaded = true] with the message ["Service ready"],
    while the state is not inference-ready: every [/segment] request is
    answered with status 500 (a well-formed [everything] request with the
    detail ["Model not loaded"]), and [/load-model] replies
    ["Model already loaded"] and changes nothing.  So [model_loaded] does
    not tell this degraded state from the ready one. *)
Theorem health_reports_ready_without_image_predictor (c0 : Collaborators)
    (file : bytes) (mode : string) (points boxes : option string) (t : list event) :
  (forall g, exists body,
     health_check c0 g = JSON200 body /\
     status_of (health_check c0 g) = 200%Z /\
     (hs_model_loaded body = true <-> model_built g)) /\
  (forall p m, model p = Some m -> predictor p = None ->
     ~ inference_ready (Some p) /\
     (exists body,
        health_check c0 (Some p) = JSON200 body /\
        hs_model_loaded body = true /\
        hs_message body = "Service ready") /\
     (exists detail,
        segment_image c0 (Some p) file mode points boxes t =
          (Return (HTTPError 500 detail), t))) /\
  (let w := startup_event Cases.env_failing_image_predictor initial_world in
   w_predictor w = Some Cases.half_loaded /\
   model Cases.half_loaded <> None /\
   predictor Cases.half_loaded = None /\
   segment_image c (w_predictor w) upload "everything" None None [] =
     (Return (HTTPError 500 "Model not loaded"), []) /\
   load_model_endpoint c env w = (w, Replied (success "Model already loaded"))).
Proof.
  split; [|split].
  - intros g. destruct (health_check_body c0 g) as (body & H1 & H2 & _ & _ & H5 & _).
    exists body. repeat split; auto; apply H5.
  - intros p m Hm Hp. split; [|split].
    + intros (p0 & m0 & ip0 & E & _ & Hip). injection E as <-. congruence.
    + destruct (health_check_body c0 (Some p)) as (body & H1 & _ & _ & _ & H5 & _).
      exists body. split; [exact H1|].
      assert (Hl : hs_model_loaded body = true) by (apply H5; now exists p, m).
      split; [exact Hl|].
      revert H1. unfold health_check, health_try. rewrite Hm. cbn [negb].
      intros H. injection H as <-. reflexivity.
    + destruct (@segment_image_not_loaded c0 p file mode points boxes t Hp)
        as (detail & H & _).
      now exists detail.
  - cbv zeta. split; [reflexivity|]. split; [discriminate|].
    split; [reflexivity|]. split; reflexivity.
Qed.

(** Counterexample for C6 as stated: an unrecognized mode, and points mode
    with an empty point list, are answered with status 500, not 400. *)
Lemma invalid_combination_is_not_400 :
  invalid_combination "polygon" None /\
  segment_image c (Some loaded) upload "polygon" None None [] =
    (Return (HTTPError 500 "Invalid segmentation mode: polygon"), []) /\
  invalid_combination "points" (Some (JList [])) /\
  segment_image c (Some loaded) upload "points" (Some "[]") None [] =
    (Return (HTTPError 500 "Invalid segmentation mode: points"), []) /\
  (forall mode points,
     status_of (HTTPError (B:=SegmentBody) 500 ("Invalid segmentation mode: " ++ mode)%string)
     <> 400%Z /\
     fst (segment_image c (Some loaded) upload "polygon" None None [])
     <> Return (HTTPError 400 points)).
Proof.
  split; [right; repeat split; discriminate|].
  split; [reflexivity|].
  split; [left; split; reflexivity|].
  split; [reflexivity|].
  intros mode points. split; discriminate.
Qed.

(** Witness for C6 as corrected. *)
Lemma segment_image_invalid_combination_is_500_witness :
  image_open c upload = Return img /\
  parse_field c (Some "[]") = Return (Some (JList [])) /\
  parse_field c None = Return None /\
  invalid_combination "points" (Some (JList [])) /\
  segment_image c (Some loaded) upload "points" (Some "[]") None [] =
    (Return (HTTPError 500 "Invalid segmentation mode: points"), []).
Proof.
  assert (Hinv : invalid_combination "points" (Some (JList [])))
    by (left; split; reflexivity).
  split; [reflexivity|]. split; [reflexivity|]. split; [reflexivity|].
  split; [exact Hinv|].
  exact (@segment_image_invalid_combination_is_500 c loaded upload "points"
           (Some "[]") None [] img (Some (JList [])) None
           eq_refl eq_refl eq_refl Hinv).
Defined.

(** Witness for C8, with the stand-in for the PNG codec. *)
Lemma encode_decode_mask_roundtrip_witness :
  png_save c (mask_uint8 top_row) =
    Return [Byte.x02; Byte.xff; Byte.xff; Byte.x02; Byte.x00; Byte.x00] /\
  load_rows [Byte.x02; Byte.xff; Byte.xff; Byte.x02; Byte.x00; Byte.x00] =
    Some (mask_uint8 top_row) /\
  encode_mask_to_base64 c top_row = "Av//AgAA" /\
  decode_mask_from_base64 load_rows "Av//AgAA" = Some top_row.
Proof.
  split; [reflexivity|]. split; [reflexivity|].
  exact (@encode_decode_mask_roundtrip c load_rows top_row
           [Byte.x02; Byte.xff; Byte.xff; Byte.x02; Byte.x00; Byte.x00]
           eq_refl eq_refl).
Defined.

(** Counterexample for C9 as stated: the second call is resumed while the
    first is suspended in its download; both find no model, both enter
    [load_model], both reply ["Model loaded successfully"]. *)
Lemma overlapping_calls_load_twice :
  run c env [First; Second; First; Second] (two_callers constructed_world) =
    {| world := {| w_predictor := Some loaded;
                   w_files := ["sam2_hiera_tiny.pt"; "sam2_hiera_tiny.pt"];
                   w_loads := 2 |};
       first_call := Replied (success "Model loaded successfully");
       second_call := Replied (success "Model loaded successfully") |} /\
  ~ single_flight c env.
Proof.
  split; [reflexivity|]. intros H.
  specialize (H constructed_world [First; Second; First; Second]).
  assert (Hu : unloaded constructed_world) by (right; now exists constructed).
  assert (Hb : both_replied (run c env [First; Second; First; Second]
                               (two_callers constructed_world)))
    by (eexists _, _; split; reflexivity).
  specialize (H Hu Hb). discriminate H.
Qed.

(** Witness for C9 as corrected. *)
Lemma sequential_calls_load_once_witness :
  unloaded constructed_world /\
  first_call (run c env [First; First] (two_callers constructed_world)) =
    Replied (success "Model loaded successfully") /\
  w_loads (world (run c env [First; First; Second; Second]
                    (two_callers constructed_world))) = 1%nat /\
  second_call (run c env [First; First; Second; Second]
                 (two_callers constructed_world)) =
    Replied (success "Model already loaded").
Proof.
  assert (Hu : unloaded constructed_world) by (right; now exists constructed).
  split; [exact Hu|]. split; [reflexivity|].
  destruct (@sequential_calls_load_once c env constructed_world [Second; Second]
              (success "Model loaded successfully") Hu eq_refl eq_refl)
    as (H1 & _ & _ & H4).
  split; [exact H1|]. apply H4. now left.
Defined.

(** Witness for C10: three masks, two scores. *)
Lemma unscored_masks_are_kept_with_score_zero_witness :
  parse_field c (Some "[[50,50]]") = Return (Some (JList [JList [JNum 50; JNum 50]])) /\
  run_segmentation c loaded img "points" (Some (JList [JList [JNum 50; JNum 50]])) None [] =
    (Return {| masks := [top_row; top_left; bottom_row]; scores := [0.9; 0.8] |},
     [EvSetImage img;
      EvPredict {| point_coords := Some (JList [JList [JNum 50; JNum 50]]);
                   point_labels := Some [1%Z]; box := None;
                   multimask_output := true |}]) /\
  exists body t',
    segment_image c (Some loaded) upload "points" (Some "[[50,50]]") None [] =
      (Return (JSON200 body), t') /\
    body_num_masks body = 3%nat /\
    nth_error (body_masks body) 2 =
      Some {| entry_id := 2; entry_mask := "AgAAAv//"; entry_score := 0;
              entry_area := 2 |}.
Proof.
  split; [reflexivity|]. split; [reflexivity|].
  destruct (@unscored_masks_are_kept_with_score_zero c loaded upload
              "https://example.org/a.png" "points" (Some "[[50,50]]") None img
              (Some (JList [JList [JNum 50; JNum 50]]))%Z None [] _ _
              eq_refl eq_refl eq_refl)
    as (body & H1 & _ & _ & H4 & _ & H6).
  exists body. eexists. split; [exact (H1 eq_refl)|]. split; [exact H4|].
  exact (H6 2%nat bottom_row eq_refl (le_n 2)).
Defined.

End Runs.

(* ********************************************************************* *)
(** * Further properties of the code                                       *)
(* ********************************************************************* *)

(* ===================================================================== *)
(** * The overlap measure                                                  *)
(* ===================================================================== *)

Lemma pos_of_nat_Z (u : nat) : u <> 0%nat -> Z.pos (Pos.of_nat u) = Z.of_nat u.
Proof. intros Hu. now rewrite <- positive_nat_Z, Nat2Pos.id by exact Hu. Qed.

Lemma row_sum_and_le_or (r1 r2 : list bool) :
  (Np.row_sum (Np.zip_with andb r1 r2) <= Np.row_sum (Np.zip_with orb r1 r2))%nat.
Proof.
  unfold Np.row_sum. revert r2.
  induction r1 as [|x r1 IH]; intros [|y r2]; simpl; try lia.
  specialize (IH r2). destruct x, y; simpl; lia.
Qed.

Lemma sum_and_le_or (a b : Np.ndarray) :
  (Np.sum (Np.logical_and a b) <= Np.sum (Np.logical_or a b))%nat.
Proof.
  unfold Np.logical_and, Np.logical_or. revert b.
  induction a as [|r1 a IH]; intros [|r2 b]; simpl; try lia.
  specialize (IH b). pose proof (row_sum_and_le_or r1 r2). lia.
Qed.

(** X1.  For two masks of one shape, as the masks of one [generate] call
    are, [_calculate_mask_iou] returns a value between 0 and 1, empty
    masks included, as its docstring promises. *)
Theorem mask_iou_between_0_and_1 (mask1 mask2 : Np.ndarray) :
  Np.same_shape mask1 mask2 = true ->
  0 <= _calculate_mask_iou mask1 mask2 /\ _calculate_mask_iou mask1 mask2 <= 1.
Proof.
  intros Hs. unfold _calculate_mask_iou. rewrite Hs.
  pose proof (sum_and_le_or mask1 mask2) as Hle.
  destruct (Nat.eqb_spec (Np.sum (Np.logical_or mask1 mask2)) 0) as [_|Hu];
    [split; discriminate|].
  unfold Qle. cbn [Qnum Qden]. rewrite (pos_of_nat_Z Hu). lia.
Qed.

(** X2.  The overlap of two masks is the same whichever is passed first
    to [_calculate_mask_iou]; the greedy filter always passes the
    candidate first and the accepted mask second. *)
Theorem mask_iou_symmetric (mask1 mask2 : Np.ndarray) :
  _calculate_mask_iou mask1 mask2 = _calculate_mask_iou mask2 mask1.
Proof. apply iou_comm. Qed.

Lemma zip_with_diag {A B} (f : A -> A -> B) (l : list A) :
  Np.zip_with f l l = map (fun x => f x x) l.
Proof. induction l as [|x l IH]; simpl; [reflexivity | now rewrite IH]. Qed.

Lemma logical_and_diag (a : Np.ndarray) : Np.logical_and a a = a.
Proof.
  unfold Np.logical_and. rewrite zip_with_diag.
  rewrite <- (map_id a) at 2. apply map_ext. intros r.
  rewrite zip_with_diag. rewrite <- (map_id r) at 2. apply map_ext.
  now intros [].
Qed.

Lemma logical_or_diag (a : Np.ndarray) : Np.logical_or a a = a.
Proof.
  unfold Np.logical_or. rewrite zip_with_diag.
  rewrite <- (map_id a) at 2. apply map_ext. intros r.
  rewrite zip_with_diag. rewrite <- (map_id r) at 2. apply map_ext.
  now intros [].
Qed.

Lemma same_shape_refl (a : Np.ndarray) : Np.same_shape a a = true.
Proof.
  unfold Np.same_shape.
  destruct (list_eq_dec Nat.eq_dec (Np.row_lengths a) (Np.row_lengths a));
    congruence.
Qed.

Lemma iou_self (mask : Np.ndarray) :
  (Np.sum mask = 0%nat -> _calculate_mask_iou mask mask = 0) /\
  (Np.sum mask <> 0%nat -> _calculate_mask_iou mask mask == 1).
Proof.
  unfold _calculate_mask_iou.
  rewrite same_shape_refl, logical_and_diag, logical_or_diag. split.
  - intros ->. reflexivity.
  - intros Hn. destruct (Nat.eqb_spec (Np.sum mask) 0); [contradiction|].
    unfold Qeq. cbn [Qnum Qden]. rewrite (pos_of_nat_Z Hn). lia.
Qed.

(** X3.  A mask compared with itself has overlap 1 when it has at least
    one pixel set, and overlap 0 (the empty-union case) when it has
    none. *)
Theorem mask_iou_with_itself (mask : Np.ndarray) :
  (Np.sum mask = 0%nat -> _calculate_mask_iou mask mask = 0) /\
  (Np.sum mask <> 0%nat -> _calculate_mask_iou mask mask == 1).
Proof. apply iou_self. Qed.

(** Two masks that share no pixel have overlap 0. *)
Lemma iou_disjoint (mask1 mask2 : Np.ndarray) :
  Np.sum (Np.logical_and mask1 mask2) = 0%nat ->
  _calculate_mask_iou mask1 mask2 == 0.
Proof.
  intros H. unfold _calculate_mask_iou. rewrite H.
  destruct (Np.same_shape mask1 mask2); [|reflexivity].
  destruct (Nat.eqb (Np.sum (Np.logical_or mask1 mask2)) 0); reflexivity.
Qed.

(* ===================================================================== *)
(** * What the overlap filter keeps and drops                              *)
(* ===================================================================== *)

(** The loop only ever appends to the list of accepted masks. *)
Lemma filter_loop_extends (sorted_masks accepted : list MaskData) :
  exists more, filter_loop sorted_masks accepted = accepted ++ more /\
               (forall m, In m more -> In m sorted_masks) /\
               (List.length more <= List.length sorted_masks)%nat.
Proof.
  revert accepted. induction sorted_masks as [|cand rest IH]; intros acc; simpl.
  - exists []. rewrite app_nil_r. repeat split; auto; try (intros m []).
  - destruct (is_overlapping _ acc).
    + destruct (IH acc) as (more & E & Hin & Hlen). exists more.
      split; [exact E|]. split; [auto | lia].
    + destruct (IH (acc ++ [cand])) as (more & E & Hin & Hlen).
      exists (cand :: more). rewrite E, <- app_assoc. split; [reflexivity|].
      split; [|simpl; lia]. intros m [<-|Hm]; [now left | right; auto].
Qed.

Lemma filter_loop_first (cand : MaskData) (rest : list MaskData) :
  exists more, filter_loop (cand :: rest) [] = cand :: more.
Proof.
  simpl. destruct (filter_loop_extends rest [cand]) as (more & E & _).
  exists more. exact E.
Qed.


Lemma filter_overlapping_masks_selects_aux (raw : list MaskData) :
  (forall m, In m (_filter_overlapping_masks raw) -> In m raw) /\
  (List.length (_filter_overlapping_masks raw) <= List.length raw)%nat /\
  (raw <> [] -> _filter_overlapping_masks raw <> []).
Proof.
  rewrite filter_overlapping_as_loop.
  destruct (filter_loop_extends (py_sorted_reverse predicted_iou raw) [])
    as (more & E & Hin & Hlen).
  rewrite E. simpl. split; [|split].
  - intros m Hm. eapply Permutation_in; [apply py_sorted_perm | now apply Hin].
  - rewrite (Permutation_length (py_sorted_perm predicted_iou raw)) in Hlen.
    exact Hlen.
  - intros Hne Hmore. subst more.
    destruct (py_sorted_reverse predicted_iou raw) as [|cand rest] eqn:Es.
    + apply Hne. apply Permutation_nil.
      rewrite <- Es. apply py_sorted_perm.
    + destruct (filter_loop_first cand rest) as (more & E').
      rewrite E in E'. discriminate.
Qed.

(** X4.  [_filter_overlapping_masks] only selects: every mask it returns
    is one of the input masks, it never returns more masks than it was
    given, and it returns at least one whenever it was given one. *)
Theorem filter_overlapping_masks_selects (raw : list MaskData) :
  (forall m, In m (_filter_overlapping_masks raw) -> In m raw) /\
  (List.length (_filter_overlapping_masks raw) <= List.length raw)%nat /\
  (raw <> [] -> _filter_overlapping_masks raw <> []).
Proof. apply filter_overlapping_masks_selects_aux. Qed.




Lemma ForallOrdPairs_before {A} (R : A -> A -> Prop) (l1 : list A) (x : A) (l2 : list A) :
  ForallOrdPairs R (l1 ++ x :: l2) -> Forall (fun a => R a x) l1.
Proof.
  induction l1 as [|a l1 IH]; simpl; intros H; [constructor|].
  inversion H as [|? ? Ha Hl]; subst. constructor; [|now apply IH].
  rewrite Forall_forall in Ha. apply Ha. apply in_or_app. right. now left.
Qed.

(** A list in which every mask tolerates the ones before it passes the
    scan untouched. *)
Lemma filter_loop_all_accepted (sorted_masks accepted : list MaskData) :
  ForallOrdPairs tolerates (accepted ++ sorted_masks) ->
  filter_loop sorted_masks accepted = accepted ++ sorted_masks.
Proof.
  revert accepted. induction sorted_masks as [|cand rest IH]; intros acc H; simpl.
  - now rewrite app_nil_r.
  - assert (E : is_overlapping (segmentation cand) acc = false).
    { apply is_overlapping_false. intros a Ha.
      pose proof (@ForallOrdPairs_before _ tolerates acc cand rest H) as Hb.
      rewrite Forall_forall in Hb. exact (Hb a Ha). }
    rewrite E, IH; rewrite <- app_assoc; [reflexivity | exact H].
Qed.


Section SymmetricPairs.
Context {A : Type} (key : A -> Q) (R : A -> A -> Prop).
Hypothesis R_sym : forall a b, R a b -> R b a.


End SymmetricPairs.


(** X8.  Filtering twice is filtering once: [_filter_overlapping_masks]
    applied to its own result returns it unchanged. *)
Theorem filter_overlapping_masks_idempotent (raw : list MaskData) :
  _filter_overlapping_masks (_filter_overlapping_masks raw) =
  _filter_overlapping_masks raw.
Proof.
  rewrite (filter_overlapping_as_loop (_filter_overlapping_masks raw)).
  rewrite resort_is_identity. rewrite (filter_overlapping_as_loop raw).
  apply filter_loop_all_accepted. simpl.
  apply filter_loop_tolerates. constructor.
Qed.

Lemma kept_in_raw (raw : list MaskData) (a : MaskData) : In a (kept raw) -> In a raw.
Proof.
  unfold kept. intros H.
  assert (H' : In a (filter_loop (py_sorted_reverse predicted_iou raw) [])).
  { rewrite <- (firstn_skipn max_masks (filter_loop _ _)). apply in_or_app. now left. }
  rewrite <- filter_overlapping_as_loop in H'.
  now apply (proj1 (filter_overlapping_masks_selects_aux raw)).
Qed.

(** C2.  In every result of [segment_everything] there are at most 25
    masks, and any two of them, at different positions, have an IoU of at
    most [6/10], measured on the pixels themselves: the pixels the two
    masks share are at most 6/10 of the pixels they cover together,
    [10 * |A∩B| <= 6 * |A∪B|].  That the candidates of one [generate] call
    all have one shape (that of the image) is the hypothesis on the
    model. *)
Theorem everything_result_pairwise_bounded (c : Collaborators) (self : SAM2Predictor)
    (img : image) (t t' : list event) (r : SegResult) :
  segment_everything c self img t = (Return r, t') ->
  (forall raw a b, sam2_generate c img = Return raw -> In a raw -> In b raw ->
     Np.same_shape (segmentation a) (segmentation b) = true) ->
  (List.length (masks r) <= 25)%nat /\
  forall i j mi mj, i <> j ->
    nth_error (masks r) i = Some mi ->
    nth_error (masks r) j = Some mj ->
    (10 * Np.sum (Np.logical_and mi mj) <= 6 * Np.sum (Np.logical_or mi mj))%nat.
Proof.
  intros H Hshape. apply segment_everything_returns in H.
  destruct H as (raw & Hgen & -> & _). split.
  - rewrite everything_postprocess_kept. simpl. rewrite length_map. apply kept_length.
  - intros i j mi mj Hij Hi Hj.
    pose proof (postprocess_pairwise raw Hij Hi Hj) as Hiou.
    rewrite everything_postprocess_kept in Hi, Hj. cbn [masks] in Hi, Hj.
    rewrite nth_error_map in Hi, Hj.
    destruct (nth_error (kept raw) i) as [a|] eqn:Ea; [|discriminate].
    destruct (nth_error (kept raw) j) as [b|] eqn:Eb; [|discriminate].
    injection Hi as <-. injection Hj as <-.
    assert (Hs : Np.same_shape (segmentation a) (segmentation b) = true).
    { apply (Hshape raw a b Hgen); apply kept_in_raw; eapply nth_error_In; eauto. }
    pose proof (sum_and_le_or (segmentation a) (segmentation b)) as Hle.
    revert Hiou. unfold _calculate_mask_iou. rewrite Hs.
    destruct (Nat.eqb_spec (Np.sum (Np.logical_or (segmentation a) (segmentation b))) 0)
      as [Hu|Hu]; [lia|].
    unfold Qle, overlap_threshold. cbn [Qnum Qden]. rewrite (pos_of_nat_Z Hu). lia.
Qed.






(* ===================================================================== *)
(** * The predictor's methods under failure                                *)
(* ===================================================================== *)

Section PredictorFailures.
Context (c : Collaborators).

(** The loop over a list of boxes that ends with a box on which the model
    raises: the answers before it are thrown away with the exception. *)
Lemma boxes_loop_raises (img : image) (before : list json) (b : json)
    (after : list json) (e : exn) :
  (forall b', In b' before -> exists r, sam2_predict c img (box_args b') = Return r) ->
  sam2_predict c img (box_args b) = Raise e ->
  forall all_masks all_scores t,
    boxes_loop c img (before ++ b :: after) all_masks all_scores t =
    (Raise e, t ++ box_events (before ++ [b])).
Proof.
  intros Hok Hb. induction before as [|b0 before IH]; intros ms ss t; simpl.
  - unfold bind, call. now rewrite Hb.
  - destruct (Hok b0 (or_introl eq_refl)) as [r Hr].
    unfold bind at 1, call at 1. rewrite Hr.
    rewrite IH by (intros b' Hb'; apply Hok; now right).
    now rewrite <- app_assoc.
Qed.

(** X12.  [segment_with_boxes] is all or nothing: if the model raises on
    one box after answering the boxes before it, the call raises that
    very exception, the answers already collected are not returned, and
    no box after the failing one is queried. *)
Theorem segment_with_boxes_stops_at_first_failure (self : SAM2Predictor) (img : image)
    (before : list json) (b : json) (after : list json) (e : exn) (t : list event) :
  predictor self <> None ->
  sam2_set_image c img = Return tt ->
  (forall b', In b' before -> exists r, sam2_predict c img (box_args b') = Return r) ->
  sam2_predict c img (box_args b) = Raise e ->
  segment_with_boxes c self img (JList (before ++ b :: after)) t =
    (Raise e, t ++ EvSetImage img :: box_events (before ++ [b])).
Proof.
  intros Hloaded Hset Hok Hb. unfold segment_with_boxes.
  destruct (predictor self); [|contradiction].
  unfold bind at 1, call at 1. rewrite Hset.
  unfold bind at 1, lift, py_iter.
  rewrite (@boxes_loop_raises img before b after e Hok Hb).
  now rewrite <- app_assoc.
Qed.

End PredictorFailures.

(* ===================================================================== *)
(** * The segmentation handlers, request by request                        *)
(* ===================================================================== *)

Section HandlerFacts.
Context (c : Collaborators).

Lemma appends_lift {A} (r : result A) : appends (lift r).
Proof. intros t. exists []. simpl. now rewrite app_nil_r. Qed.

Lemma appends_ret {A} (a : A) : appends (ret a).
Proof. intros t. exists []. simpl. now rewrite app_nil_r. Qed.

Lemma appends_raise {A} (e : exn) : appends (@raise A e).
Proof. intros t. exists []. simpl. now rewrite app_nil_r. Qed.

Lemma appends_call {A} (ev : event) (r : result A) : appends (call ev r).
Proof. intros t. now exists [ev]. Qed.

Lemma appends_bind {A B} (m : M A) (k : A -> M B) :
  appends m -> (forall a, appends (k a)) -> appends (bind m k).
Proof.
  intros Hm Hk t. unfold bind. destruct (Hm t) as (more & E).
  destruct (m t) as [[a|e] t1]; simpl in E; subst t1.
  - destruct (Hk a (t ++ more)) as (more' & E'). exists (more ++ more').
    now rewrite E', app_assoc.
  - now exists more.
Qed.

Lemma appends_try_except {A} (m : M A) (h : exn -> M A) :
  appends m -> (forall e, appends (h e)) -> appends (try_except m h).
Proof.
  intros Hm Hh t. unfold try_except. destruct (Hm t) as (more & E).
  destruct (m t) as [[a|e] t1]; simpl in E; subst t1.
  - now exists more.
  - destruct (Hh e (t ++ more)) as (more' & E'). exists (more ++ more').
    now rewrite E', app_assoc.
Qed.

Lemma appends_boxes_loop (img : image) (boxes : list json) :
  forall all_masks all_scores, appends (boxes_loop c img boxes all_masks all_scores).
Proof.
  induction boxes as [|b rest IH]; intros ms ss; simpl.
  - apply appends_ret.
  - apply appends_bind; [apply appends_call|]. intros r. apply IH.
Qed.

Lemma appends_run_segmentation (p : SAM2Predictor) (img : image) (mode : string)
    (pts bxs : option json) :
  appends (run_segmentation c p img mode pts bxs).
Proof.
  unfold run_segmentation.
  destruct (String.eqb mode "everything").
  { unfold segment_everything. destruct (predictor p); [|apply appends_raise].
    apply appends_bind; [apply appends_call|]. intros raw. apply appends_ret. }
  destruct (String.eqb mode "points" && truthy_opt pts).
  { destruct pts as [v|]; [|apply appends_raise].
    unfold segment_with_points. destruct (predictor p); [|apply appends_raise].
    apply appends_bind; [apply appends_call|]. intros _.
    apply appends_bind; [apply appends_lift|]. intros n.
    apply appends_bind; [apply appends_call|]. intros r. apply appends_ret. }
  destruct (String.eqb mode "boxes" && truthy_opt bxs); [|apply appends_raise].
  destruct bxs as [v|]; [|apply appends_raise].
  unfold segment_with_boxes. destruct (predictor p); [|apply appends_raise].
  apply appends_bind; [apply appends_call|]. intros _.
  apply appends_bind; [apply appends_lift|]. intros bs. apply appends_boxes_loop.
Qed.

(** From the decoded image on, a request either raises or produces the
    success body. *)
Lemma segment_decoded_cases (p : SAM2Predictor) (img : image) (mode : string)
    (points boxes : option string) (t : list event) :
  exists more,
    (exists e, segment_decoded c p img mode points boxes t = (Raise e, t ++ more)) \/
    (exists pts bxs r,
       parse_field c points = Return pts /\
       parse_field c boxes = Return bxs /\
       run_segmentation c p img mode pts bxs t = (Return r, t ++ more) /\
       segment_decoded c p img mode points boxes t =
         (Return (JSON200 {| body_success := true;
                             body_mode := mode;
                             body_num_masks := List.length (masks r);
                             body_masks := encode_loop c 0 (masks r) (scores r);
                             body_image_shape := image_shape img |}), t ++ more)).
Proof.
  unfold segment_decoded, bind, lift.
  destruct (parse_field c points) as [pts|e1];
    [|exists []; left; exists e1; now rewrite app_nil_r].
  destruct (parse_field c boxes) as [bxs|e2];
    [|exists []; left; exists e2; now rewrite app_nil_r].
  destruct (appends_run_segmentation p img mode pts bxs t) as (more & E).
  destruct (run_segmentation c p img mode pts bxs t) as [[r|e] t1] eqn:Er;
    simpl in E; subst t1; exists more.
  - right. exists pts, bxs, r. repeat split; [exact Er|].
    unfold ret. now rewrite encode_loop_length.
  - left. now exists e.
Qed.

(** What a handler does once it holds the uploaded or fetched bytes. *)
Lemma segment_bytes_cases (p : SAM2Predictor) (file : bytes) (mode : string)
    (points boxes : option string) (t : list event) :
  exists more,
    (exists detail,
       segment_image c (Some p) file mode points boxes t =
         (Return (HTTPError 500 detail), t ++ more)) \/
    (exists img pts bxs r,
       image_open c file = Return img /\
       parse_field c points = Return pts /\
       parse_field c boxes = Return bxs /\
       run_segmentation c p img mode pts bxs t = (Return r, t ++ more) /\
       segment_image c (Some p) file mode points boxes t =
         (Return (JSON200 {| body_success := true;
                             body_mode := mode;
                             body_num_masks := List.length (masks r);
                             body_masks := encode_loop c 0 (masks r) (scores r);
                             body_image_shape := image_shape img |}), t ++ more)).
Proof.
  unfold segment_image, try_except, bind, lift, process_image_data.
  destruct (image_open c file) as [img|e0].
  - destruct (segment_decoded_cases p img mode points boxes t)
      as (more & [(e & E)|(pts & bxs & r & H1 & H2 & H3 & E)]);
      exists more; rewrite E.
    + left. eexists. reflexivity.
    + right. exists img, pts, bxs, r. repeat split; assumption.
  - exists []. left. eexists. now rewrite app_nil_r.
Qed.

(** The same bytes get the same answer, uploaded or fetched. *)
Lemma segment_image_url_fetched (g : option SAM2Predictor) (image_url : string)
    (content : bytes) (mode : string) (points boxes : option string) (t : list event) :
  requests_get c image_url = Return content ->
  segment_image_url c g image_url mode points boxes t =
  segment_image c g content mode points boxes t.
Proof.
  intros H. destruct g as [p|]; [|reflexivity].
  unfold segment_image_url, segment_image, try_except, bind, lift.
  now rewrite H.
Qed.

(** X13.  [/segment] and [/segment-url] let no exception escape and use
    three status codes only: 503 exactly when no predictor object exists,
    otherwise 200 or 500 (never 400); and whatever they answer, they only
    add to the calls made to the model. *)
Theorem segment_handlers_answer_200_500_or_503 (g : option SAM2Predictor)
    (file : bytes) (image_url mode : string) (points boxes : option string)
    (t : list event) :
  (exists resp more,
     segment_image c g file mode points boxes t = (Return resp, t ++ more) /\
     (status_of resp = 200 \/ status_of resp = 500 \/ status_of resp = 503)%Z /\
     (status_of resp = 503%Z <-> g = None)) /\
  (exists resp more,
     segment_image_url c g image_url mode points boxes t = (Return resp, t ++ more) /\
     (status_of resp = 200 \/ status_of resp = 500 \/ status_of resp = 503)%Z /\
     (status_of resp = 503%Z <-> g = None)).
Proof.
  assert (Hbytes : forall p data, exists resp more,
            segment_image c (Some p) data mode points boxes t = (Return resp, t ++ more) /\
            (status_of resp = 200 \/ status_of resp = 500 \/ status_of resp = 503)%Z /\
            (status_of resp = 503%Z <-> Some p = None)).
  { intros p data.
    destruct (segment_bytes_cases p data mode points boxes t)
      as (more & [(d & E)|(img & pts & bxs & r & _ & _ & _ & _ & E)]);
      eexists _, more; (split; [exact E|]); simpl;
      (split; [tauto|]); split; discriminate. }
  split.
  - destruct g as [p|]; [apply Hbytes|].
    eexists _, []. rewrite app_nil_r. split; [reflexivity|]. simpl.
    split; [tauto|]. split; reflexivity.
  - destruct g as [p|].
    + destruct (requests_get c image_url) as [content|e] eqn:Eg.
      * rewrite (segment_image_url_fetched (Some p) _ _ _ _ _ Eg). apply Hbytes.
      * eexists _, []. rewrite app_nil_r.
        unfold segment_image_url, try_except, bind, lift. rewrite Eg.
        split; [reflexivity|]. simpl. split; [tauto|]. split; discriminate.
    + eexists _, []. rewrite app_nil_r. split; [reflexivity|]. simpl.
      split; [tauto|]. split; reflexivity.
Qed.

End HandlerFacts.

Section ResponseFacts.
Context (c : Collaborators).

Lemma encode_loop_inv (k i : nat) (ms : list Np.ndarray) (ss : list Q) (e : MaskEntry) :
  nth_error (encode_loop c k ms ss) i = Some e ->
  exists m, nth_error ms i = Some m /\ e = entry_of c (k + i) m ss.
Proof.
  revert k i. induction ms as [|m0 ms IH]; intros k [|i] H; simpl in *;
    try discriminate.
  - injection H as <-. exists m0. rewrite Nat.add_0_r. now split.
  - destruct (IH (S k) i H) as (m & Hm & ->). exists m. split; [exact Hm|].
    f_equal. lia.
Qed.

(** X14.  A success answer of [/segment] is consistent: [success] is true,
    the mode is echoed, [num_masks] is the number of entries, the entries
    carry the ids 0, 1, 2, ... in order and non-negative areas, and
    [image_shape] is the height and width of the image decoded from the
    upload. *)
Theorem segment_success_body_is_consistent (g : option SAM2Predictor) (file : bytes)
    (mode : string) (points boxes : option string) (t t' : list event)
    (body : SegmentBody) :
  segment_image c g file mode points boxes t = (Return (JSON200 body), t') ->
  body_success body = true /\
  body_mode body = mode /\
  body_num_masks body = List.length (body_masks body) /\
  (exists img, image_open c file = Return img /\
               body_image_shape body = image_shape img) /\
  (forall i e, nth_error (body_masks body) i = Some e ->
     entry_id e = i /\ (0 <= entry_area e)%Z).
Proof.
  intros H. destruct g as [p|]; [|discriminate].
  destruct (segment_bytes_cases c p file mode points boxes t)
    as (more & [(d & E)|(img & pts & bxs & r & Hi & _ & _ & _ & E)]);
    rewrite E in H; [discriminate|].
  injection H as <- _. cbn [body_success body_mode body_num_masks body_masks
                            body_image_shape].
  split; [reflexivity|]. split; [reflexivity|].
  split; [now rewrite encode_loop_length|].
  split; [now exists img|].
  intros i e He. apply encode_loop_inv in He. destruct He as (m & _ & ->).
  unfold entry_of. simpl. split; [reflexivity | lia].
Qed.

(** X15.  [/segment-url] is [/segment] on the fetched bytes: when the
    fetch succeeds the answer is the one [/segment] gives for those bytes;
    when it fails (time-out, HTTP error status) the answer is 500 with
    the text of the exception, and the model is not called. *)
Theorem segment_url_is_segment_on_fetched_bytes (g : option SAM2Predictor)
    (image_url mode : string) (points boxes : option string) (t : list event) :
  (forall content, requests_get c image_url = Return content ->
     segment_image_url c g image_url mode points boxes t =
     segment_image c g content mode points boxes t) /\
  (forall e p, requests_get c image_url = Raise e -> g = Some p ->
     segment_image_url c g image_url mode points boxes t =
     (Return (HTTPError 500 (str c e)), t)).
Proof.
  split.
  - intros content H. now apply segment_image_url_fetched.
  - intros e p H ->. unfold segment_image_url, try_except, bind, lift.
    now rewrite H.
Qed.

(** X16.  A prompt field that is not valid JSON fails the request with
    status 500 in every mode, also in [everything] mode where no prompt is
    used, and before any call to the model.  (An empty field counts as
    absent and is not parsed.) *)
Theorem unparsable_prompt_fails_every_mode (p : SAM2Predictor) (file : bytes)
    (mode field : string) (other : option string) (e : exn) (img : image)
    (t : list event) :
  image_open c file = Return img ->
  field <> "" ->
  json_loads c field = Raise e ->
  segment_image c (Some p) file mode (Some field) other t =
    (Return (HTTPError 500 (str c e)), t) /\
  (forall pts, parse_field c other = Return pts ->
     segment_image c (Some p) file mode other (Some field) t =
       (Return (HTTPError 500 (str c e)), t)).
Proof.
  intros Hi Hne Hj.
  assert (Hf : parse_field c (Some field) = Raise e).
  { unfold parse_field. destruct (String.eqb_spec field ""); [contradiction|].
    now rewrite Hj. }
  unfold segment_image, try_except, bind, lift, process_image_data.
  rewrite Hi. unfold segment_decoded, bind, lift. rewrite Hf.
  split; [reflexivity|]. intros pts Ho. now rewrite Ho.
Qed.

(** X17.  The router looks only at the prompt of the requested mode: in
    [everything] mode both prompt fields are ignored, and in [points] mode
    with a non-empty point list the box field is ignored, as long as the
    ignored fields parse. *)
Theorem prompts_of_other_modes_are_ignored (g : option SAM2Predictor) (file : bytes)
    (points boxes : option string) (pts bxs : option json) (t : list event) :
  parse_field c points = Return pts ->
  parse_field c boxes = Return bxs ->
  segment_image c g file "everything" points boxes t =
    segment_image c g file "everything" None None t /\
  (truthy_opt pts = true ->
   segment_image c g file "points" points boxes t =
     segment_image c g file "points" points None t).
Proof.
  intros Hp Hb. destruct g as [p|]; [|split; reflexivity].
  unfold segment_image, try_except, bind, lift, process_image_data.
  destruct (image_open c file) as [img|e0]; [|split; reflexivity].
  unfold segment_decoded, bind, lift. rewrite Hp, Hb. cbn [parse_field].
  split; [reflexivity|]. intros Ht.
  unfold run_segmentation. cbn [String.eqb Ascii.eqb Bool.eqb andb]. now rewrite Ht.
Qed.

(** X18.  Point prompts pass through unfiltered.  A [/segment] request in
    [points] mode with [k >= 1] points on a ready predictor makes one
    [set_image] call and one [predict] call for all points together
    (every point labelled 1, multi-mask output on); the answer has one
    entry per mask the model returned, in the model's order, with no
    overlap filter, no sorting and no limit applied. *)
Theorem points_request_passes_model_answer_through (p : SAM2Predictor) (file : bytes)
    (points boxes : option string) (bxs : option json) (img : image)
    (pts : list json) (ms : list Np.ndarray) (ss : list Q) (t : list event) :
  let args := {| point_coords := Some (JList pts);
                 point_labels := Some (repeat 1%Z (List.length pts));
                 box := None;
                 multimask_output := true |} in
  predictor p <> None ->
  image_open c file = Return img ->
  parse_field c points = Return (Some (JList pts)) ->
  pts <> [] ->
  parse_field c boxes = Return bxs ->
  sam2_set_image c img = Return tt ->
  sam2_predict c img args = Return (ms, ss) ->
  exists body,
    segment_image c (Some p) file "points" points boxes t =
      (Return (JSON200 body), t ++ [EvSetImage img; EvPredict args]) /\
    body_num_masks body = List.length ms /\
    List.length (body_masks body) = List.length ms /\
    forall i m, nth_error ms i = Some m ->
      exists e, nth_error (body_masks body) i = Some e /\
                entry_id e = i /\
                entry_mask e = encode_mask_to_base64 c m /\
                entry_area e = Z.of_nat (Np.sum m) /\
                (forall s, nth_error ss i = Some s -> entry_score e = s).
Proof.
  intros args Hl Hi Hp Hne Hb Hs Hr.
  assert (Hrun : run_segmentation c p img "points" (Some (JList pts)) bxs t =
                 (Return {| masks := ms; scores := ss |},
                  t ++ [EvSetImage img; EvPredict args])).
  { unfold run_segmentation. cbn [String.eqb Ascii.eqb Bool.eqb andb truthy_opt truthy].
    destruct pts as [|pt pts']; [contradiction|].
    unfold segment_with_points. destruct (predictor p); [|contradiction].
    unfold bind at 1, call at 1. rewrite Hs.
    unfold bind at 1, lift, py_len. unfold bind, call. fold args. rewrite Hr.
    unfold ret. now rewrite <- app_assoc. }
  eexists. split; [|split; [|split]].
  - unfold segment_image, try_except, bind, lift, process_image_data. rewrite Hi.
    rewrite (@segment_decoded_returns c p img "points" points boxes _ _ t _ _
               Hp Hb Hrun). reflexivity.
  - reflexivity.
  - cbn [body_masks masks scores]. apply encode_loop_length.
  - intros i m Hm. cbn [body_masks masks scores].
    eexists. split; [exact (@encode_loop_nth c 0 i ms ss m Hm)|].
    unfold entry_of. cbn [entry_id entry_mask entry_area entry_score Nat.add].
    repeat split. intros s Hsi.
    assert (Hlt : (i < List.length ss)%nat) by (apply nth_error_Some; congruence).
    destruct (Nat.ltb_spec i (List.length ss)); [|lia].
    now apply nth_error_nth.
Qed.

(** X19.  A mask that cannot be encoded does not fail the request: the
    answer is still HTTP 200 with one entry per mask, and the entry of a
    mask on which the image library raised carries the empty string as
    payload, with its id and area as for any other mask. *)
Theorem unencodable_mask_gets_empty_payload (p : SAM2Predictor) (file : bytes)
    (mode : string) (points boxes : option string) (img : image)
    (pts bxs : option json) (t t' : list event) (r : SegResult) :
  image_open c file = Return img ->
  parse_field c points = Return pts ->
  parse_field c boxes = Return bxs ->
  run_segmentation c p img mode pts bxs t = (Return r, t') ->
  exists body,
    segment_image c (Some p) file mode points boxes t = (Return (JSON200 body), t') /\
    List.length (body_masks body) = List.length (masks r) /\
    forall i m e, nth_error (masks r) i = Some m ->
      png_save c (mask_uint8 m) = Raise e ->
      exists entry, nth_error (body_masks body) i = Some entry /\
                    entry_id entry = i /\
                    entry_mask entry = "" /\
                    entry_area entry = Z.of_nat (Np.sum m).
Proof.
  intros Hi Hp Hb Hr. eexists. split; [|split].
  - unfold segment_image, try_except, bind, lift, process_image_data. rewrite Hi.
    rewrite (@segment_decoded_returns c p img mode points boxes pts bxs t t' r
               Hp Hb Hr). reflexivity.
  - cbn [body_masks]. apply encode_loop_length.
  - intros i m e Hm He. cbn [body_masks].
    eexists. split; [exact (@encode_loop_nth c 0 i _ _ m Hm)|].
    unfold entry_of, encode_mask_to_base64. rewrite He. repeat split.
Qed.

End ResponseFacts.

(* ===================================================================== *)
(** * Loading, call by call                                                *)
(* ===================================================================== *)

Section LoadingFacts.
Context (c : Collaborators) (env : LoadEnv).

Lemma load_model_endpoint_when_built (w : World) :
  model_built (w_predictor w) ->
  load_model_endpoint c env w = (w, Replied (success "Model already loaded")).
Proof.
  intros H. unfold load_model_endpoint.
  now rewrite (@step_entered_when_built c env w H).
Qed.

(** X20.  [/load-model] is idempotent once the model is built: the call
    replies ["Model already loaded"], does not enter [load_model], and
    leaves the process state exactly as it was, however often it is
    repeated. *)
Theorem load_model_endpoint_is_idempotent_when_built (w : World) (n : nat) :
  model_built (w_predictor w) ->
  load_model_endpoint c env w = (w, Replied (success "Model already loaded")) /\
  Nat.iter n (fun w0 => fst (load_model_endpoint c env w0)) w = w.
Proof.
  intros H. split; [now apply load_model_endpoint_when_built|].
  induction n as [|n IH]; simpl; [reflexivity|].
  rewrite IH. now rewrite load_model_endpoint_when_built.
Qed.

(** What one run of [load_model] from [build_sam2] on leaves behind, on
    an object without an image predictor. *)
Lemma load_model_build_outcome (w w' : World) (self : SAM2Predictor) (cfg : ModelConfig)
    (r : result unit) :
  predictor self = None ->
  load_model_build env w self cfg = (w', r) ->
  w_loads w' = w_loads w /\
  ((r = Return tt /\ inference_ready (w_predictor w')) \/
   (exists e, r = Raise e /\ ~ inference_ready (w_predictor w'))).
Proof.
  intros Hp. unfold load_model_build, load_model_finish.
  destruct (build_sam2 env _ _ _) as [m|e].
  - destruct (make_image_predictor env m) as [ip|e]; intros H;
      injection H as <- <-; simpl; (split; [reflexivity|]).
    + left. split; [reflexivity|]. eexists _, m, ip. repeat split.
    + right. exists e. split; [reflexivity|].
      intros (p0 & m0 & ip0 & E & _ & Hip). injection E as <-. simpl in Hip.
      congruence.
  - intros H. injection H as <- <-. simpl. split; [reflexivity|].
    right. exists e. split; [reflexivity|].
    intros (p0 & m0 & ip0 & E & _ & Hip). injection E as <-. congruence.
Qed.

Lemma not_ready_without_image_predictor (p : SAM2Predictor) :
  predictor p = None -> ~ inference_ready (Some p).
Proof. intros Hp (p0 & m0 & ip0 & E & _ & Hip). injection E as <-. congruence. Qed.

Lemma load_model_enter_outcome (w w' : World) (self : SAM2Predictor) (st : load_state) :
  predictor self = None ->
  w_predictor w = Some self ->
  load_model_enter env w self = (w', st) ->
  w_loads w' = S (w_loads w) /\
  match st with
  | Finished r =>
      (r = Return tt /\ inference_ready (w_predictor w')) \/
      (exists e, r = Raise e /\ ~ inference_ready (w_predictor w'))
  | Suspended cfg => w_predictor w' = Some self
  end.
Proof.
  intros Hp Hw. unfold load_model_enter.
  destruct (load_model_begin env (w_files w) self) as [[cfg [|]]|e].
  - destruct (load_model_build env _ self cfg) as [w2 r] eqn:E.
    apply (@load_model_build_outcome _ _ _ _ _ Hp) in E. simpl in E.
    intros H. injection H as <- <-. exact E.
  - intros H. injection H as <- <-. simpl. now split.
  - intros H. injection H as <- <-. simpl. split; [reflexivity|].
    right. exists e. split; [reflexivity|]. rewrite Hw.
    now apply not_ready_without_image_predictor.
Qed.

Lemma load_model_resume_outcome (w w' : World) (self : SAM2Predictor) (cfg : ModelConfig)
    (r : result unit) :
  predictor self = None ->
  w_predictor w = Some self ->
  load_model_resume env w cfg = (w', r) ->
  w_loads w' = w_loads w /\
  ((r = Return tt /\ inference_ready (w_predictor w')) \/
   (exists e, r = Raise e /\ ~ inference_ready (w_predictor w'))).
Proof.
  intros Hp Hw. unfold load_model_resume. rewrite Hw.
  destruct (download env (url cfg) (checkpoint cfg)) as [u|e].
  - intros E. apply (@load_model_build_outcome _ _ _ _ _ Hp) in E. exact E.
  - intros H. injection H as <- <-. split; [reflexivity|].
    right. exists e. split; [reflexivity|]. rewrite Hw.
    now apply not_ready_without_image_predictor.
Qed.

Lemma reply_of_outcome (r : result unit) (g : option SAM2Predictor) :
  (r = Return tt /\ inference_ready g) \/ (exists e, r = Raise e /\ ~ inference_ready g) ->
  (reply_status (reply_of c r) = "success" \/ reply_status (reply_of c r) = "error") /\
  (reply_status (reply_of c r) = "success" <-> inference_ready g).
Proof.
  intros [(-> & Hr)|(e & -> & Hr)]; simpl.
  - split; [now left | tauto].
  - split; [now right|]. split; [discriminate | tauto].
Qed.

(** X21.  The reply of [/load-model] tells the truth about readiness.
    Called alone in a state where nothing is ready, the handler always
    replies (it lets no exception escape), with status ["success"] or
    ["error"]; the status is ["success"] exactly when, afterwards, both
    the model and the image predictor are in place; and [load_model] was
    entered at most once. *)
Theorem load_reply_matches_readiness (w : World) :
  nothing_ready (w_predictor w) ->
  exists w' r,
    load_model_endpoint c env w = (w', Replied r) /\
    (reply_status r = "success" \/ reply_status r = "error") /\
    (reply_status r = "success" <-> inference_ready (w_predictor w')) /\
    (w_loads w' <= S (w_loads w))%nat.
Proof.
  intros Hn. unfold load_model_endpoint.
  destruct (step_task c env w Entered) as [w1 t1] eqn:E1.
  unfold step_task in E1.
  assert (Hobj : (exists e, (match w_predictor w with
                             | Some p => Return p
                             | None => new_SAM2Predictor env
                             end) = Raise e /\ w_predictor w = None) \/
                 exists p, (match w_predictor w with
                            | Some p => Return p
                            | None => new_SAM2Predictor env
                            end) = Return p /\ model p = None /\ predictor p = None).
  { destruct Hn as [->|(p & -> & Hm & Hp)].
    - unfold new_SAM2Predictor. destruct (mkdir_models_dir env) as [u|e].
      + right. eexists. repeat split.
      + left. now exists e.
    - right. now exists p. }
  destruct Hobj as [(e & Eo & Hnone)|(p & Eo & Hm & Hp)]; rewrite Eo in E1.
  - (* the constructor raised *)
    injection E1 as <- <-. eexists _, _. split; [reflexivity|]. simpl.
    split; [now right|]. split; [|lia]. split; [discriminate|].
    rewrite Hnone. intros (p0 & m0 & ip0 & E & _). discriminate.
  - rewrite Hm in E1.
    destruct (load_model_enter env _ p) as [w2 [cfg|r]] eqn:Ee;
      apply (@load_model_enter_outcome
               {| w_predictor := Some p; w_files := w_files w; w_loads := w_loads w |}
               _ p _ Hp eq_refl) in Ee; simpl in Ee;
      destruct Ee as [El Eo']; injection E1 as <- <-.
    + (* suspended on the download, then resumed *)
      simpl. destruct (load_model_resume env w2 cfg) as [w3 r] eqn:Er.
      apply (@load_model_resume_outcome _ _ _ cfg _ Hp Eo') in Er.
      destruct Er as [El' Er]. exists w3, (reply_of c r).
      split; [reflexivity|].
      destruct (@reply_of_outcome _ _ Er) as [H1 H2].
      split; [exact H1|]. split; [exact H2 | lia].
    + exists w2, (reply_of c r). split; [reflexivity|].
      destruct (@reply_of_outcome _ _ Eo') as [H1 H2].
      split; [exact H1|]. split; [exact H2 | lia].
Qed.

(** No stretch of [/load-model] undoes readiness. *)
Lemma step_task_keeps_ready (w w' : World) (t t' : task) :
  inference_ready (w_predictor w) ->
  step_task c env w t = (w', t') ->
  inference_ready (w_predictor w').
Proof.
  intros (p & m & ip & Hw & Hm & Hip).
  assert (Hready : inference_ready (Some p)) by (exists p, m, ip; auto).
  destruct t as [|cfg|r]; simpl.
  - rewrite Hw, Hm. intros H. injection H as <- _. exact Hready.
  - unfold load_model_resume. rewrite Hw.
    destruct (download env (url cfg) (checkpoint cfg)) as [u|e].
    + unfold load_model_build, load_model_finish.
      destruct (build_sam2 env _ _ _) as [m'|e].
      * destruct (make_image_predictor env m') as [ip'|e]; intros H;
          injection H as <- _; simpl.
        -- eexists _, m', ip'. repeat split.
        -- eexists _, m', ip. repeat split. exact Hip.
      * intros H. injection H as <- _. exact Hready.
    + intros H. injection H as <- _. rewrite Hw. exact Hready.
  - intros H. injection H as <- _. rewrite Hw. exact Hready.
Qed.

(** X22.  Readiness is never lost to [/load-model]: once the model and
    the image predictor are in place, they stay in place through every
    further call of the endpoint, however two calls in flight are
    interleaved and whatever they find in the environment. *)
Theorem readiness_is_never_lost (s : System) (schedule : list caller) :
  inference_ready (w_predictor (world s)) ->
  inference_ready (w_predictor (world (run c env schedule s))).
Proof.
  revert s. induction schedule as [|who rest IH]; intros s H; [exact H|].
  rewrite run_cons. apply IH. destruct who; unfold resume.
  - destruct (step_task c env (world s) (first_call s)) as [w' t'] eqn:E.
    exact (@step_task_keeps_ready _ _ _ _ H E).
  - destruct (step_task c env (world s) (second_call s)) as [w' t'] eqn:E.
    exact (@step_task_keeps_ready _ _ _ _ H E).
Qed.

(** A stretch enters [load_model] at most once, and only from the start
    of a call; no call returns to its start. *)
Lemma step_task_loads (w w' : World) (t t' : task) :
  step_task c env w t = (w', t') ->
  t' <> Entered /\
  (w_loads w <= w_loads w')%nat /\
  match t with
  | Entered => (w_loads w' <= S (w_loads w))%nat
  | _ => w_loads w' = w_loads w
  end.
Proof.
  assert (Hbuild : forall w0 self cfg w1 r,
            load_model_build env w0 self cfg = (w1, r) -> w_loads w1 = w_loads w0).
  { intros w0 self cfg w1 r. unfold load_model_build.
    destruct (load_model_finish env self cfg). intros H. now injection H as <- _. }
  destruct t as [|cfg|r]; simpl.
  - destruct (match w_predictor w with
              | Some p => Return p
              | None => new_SAM2Predictor env
              end) as [p|e].
    + destruct (model p).
      * intros H. injection H as <- <-. simpl. repeat split; (discriminate || lia).
      * unfold load_model_enter. cbn [w_files w_loads w_predictor].
        destruct (load_model_begin env (w_files w) p) as [[cfg [|]]|e].
        -- destruct (load_model_build env _ p cfg) as [w2 r2] eqn:E.
           apply Hbuild in E. simpl in E.
           intros H. injection H as <- <-. repeat split; (discriminate || lia).
        -- intros H. injection H as <- <-. simpl.
           repeat split; (discriminate || lia).
        -- intros H. injection H as <- <-. simpl.
           repeat split; (discriminate || lia).
    + intros H. injection H as <- <-. repeat split; (discriminate || lia).
  - unfold load_model_resume.
    destruct (download env (url cfg) (checkpoint cfg)) as [u|e].
    + destruct (w_predictor w) as [self|].
      * destruct (load_model_build env _ self cfg) as [w2 r2] eqn:E.
        apply Hbuild in E. simpl in E.
        intros H. injection H as <- <-. repeat split; (discriminate || lia).
      * intros H. injection H as <- <-. simpl. repeat split; (discriminate || lia).
    + intros H. injection H as <- <-. repeat split; (discriminate || lia).
  - intros H. injection H as <- <-. repeat split; (discriminate || lia).
Qed.

Lemma resume_loads (s : System) (who : caller) :
  (w_loads (world s) <= w_loads (world (resume c env s who)))%nat /\
  (w_loads (world (resume c env s who)) + not_started (resume c env s who)
   <= w_loads (world s) + not_started s)%nat.
Proof.
  unfold not_started. destruct who; unfold resume.
  - destruct (step_task c env (world s) (first_call s)) as [w' t'] eqn:E.
    apply step_task_loads in E. destruct E as (E1 & E2 & E3).
    cbn [world first_call second_call].
    destruct (first_call s), t'; try contradiction; simpl; lia.
  - destruct (step_task c env (world s) (second_call s)) as [w' t'] eqn:E.
    apply step_task_loads in E. destruct E as (E1 & E2 & E3).
    cbn [world first_call second_call].
    destruct (second_call s), t'; try contradiction; simpl; lia.
Qed.

(** X23.  Two calls of [/load-model] enter [load_model] at most twice
    between them, whatever the schedule and the environment: a call
    enters it at most once, at its start, and the count of loads never
    goes down. *)
Theorem two_callers_load_at_most_twice (w : World) (schedule : list caller) :
  (w_loads w <= w_loads (world (run c env schedule (two_callers w))) <= w_loads w + 2)%nat.
Proof.
  assert (G : forall l s,
            (w_loads (world s) <= w_loads (world (run c env l s)))%nat /\
            (w_loads (world (run c env l s)) + not_started (run c env l s)
             <= w_loads (world s) + not_started s)%nat).
  { induction l as [|who l IH]; intros s; [simpl; lia|].
    rewrite run_cons. destruct (IH (resume c env s who)) as [H1 H2].
    destruct (resume_loads s who) as [H3 H4]. lia. }
  destruct (G schedule (two_callers w)) as [H1 H2].
  assert (E : not_started (two_callers w) = 2%nat) by reflexivity.
  rewrite E in H2. change (world (two_callers w)) with w in H1, H2. lia.
Qed.

Lemma existsb_checkpoint (name : string) (files : list string) :
  In name files -> existsb (String.eqb name) files = true.
Proof.
  intros H. apply existsb_exists. exists name. split; [exact H|].
  apply String.eqb_refl.
Qed.

(** With the model built, calls that have not started or have replied
    change nothing any more. *)
Lemma settled_run (schedule : list caller) (s : System) :
  model_built (w_predictor (world s)) ->
  (first_call s = Entered \/ exists r, first_call s = Replied r) ->
  (second_call s = Entered \/ exists r, second_call s = Replied r) ->
  world (run c env schedule s) = world s /\ ~ suspended (run c env schedule s).
Proof.
  assert (Hstep : forall w t, model_built (w_predictor w) ->
            (t = Entered \/ exists r, t = Replied r) ->
            exists r, step_task c env w t = (w, Replied r)).
  { intros w t Hb [->|(r & ->)].
    - eexists. now apply step_entered_when_built.
    - now exists r. }
  revert s. induction schedule as [|who rest IH]; intros s Hb H1 H2.
  - split; [reflexivity|].
    intros [(cfg & E)|(cfg & E)];
      [destruct H1 as [H1|(r & H1)] | destruct H2 as [H2|(r & H2)]];
      simpl in E; congruence.
  - rewrite run_cons. destruct who; unfold resume.
    + destruct (Hstep _ _ Hb H1) as (r & ->).
      destruct (IH {| world := world s; first_call := Replied r;
                      second_call := second_call s |}) as [E1 E2]; auto.
      right. now exists r.
    + destruct (Hstep _ _ Hb H2) as (r & ->).
      destruct (IH {| world := world s; first_call := first_call s;
                      second_call := Replied r |}) as [E1 E2]; auto.
      right. now exists r.
Qed.

(** The first stretch of a call when the checkpoint is on disk and the
    build succeeds: the whole load happens in it. *)
Lemma step_entered_cached (w : World) (p : SAM2Predictor) (cfg : ModelConfig)
    (m : sam2_model) (ip : image_predictor) :
  w_predictor w = Some p ->
  model p = None ->
  sam2_importable env = true ->
  model_configs (model_size p) = Some cfg ->
  In (checkpoint cfg) (w_files w) ->
  build_sam2 env (config cfg) (checkpoint cfg) (device p) = Return m ->
  make_image_predictor env m = Return ip ->
  exists w1,
    step_task c env w Entered = (w1, Replied (success "Model loaded successfully")) /\
    w_loads w1 = S (w_loads w) /\
    inference_ready (w_predictor w1).
Proof.
  intros Hw Hm Hi Hc Hf Hb Hip. unfold step_task. rewrite Hw, Hm.
  unfold load_model_enter, load_model_begin. cbn [w_files w_loads w_predictor].
  rewrite Hi, Hc. cbn [negb]. rewrite (existsb_checkpoint _ _ Hf).
  unfold load_model_build, load_model_finish. rewrite Hb, Hip.
  eexists. split; [reflexivity|]. simpl. split; [reflexivity|].
  eexists _, m, ip. repeat split.
Qed.

(** X24.  With the checkpoint already on disk a load has no suspension
    point, so two calls cannot overlap: if nothing is loaded, the
    checkpoint file is present and building succeeds, then under every
    schedule in which at least one call runs, [load_model] is entered
    exactly once, the model ends up ready, and no call is ever left
    waiting. *)
Theorem cached_checkpoint_loads_exactly_once (w : World) (p : SAM2Predictor)
    (cfg : ModelConfig) (m : sam2_model) (ip : image_predictor)
    (schedule : list caller) :
  w_predictor w = Some p ->
  model p = None ->
  sam2_importable env = true ->
  model_configs (model_size p) = Some cfg ->
  In (checkpoint cfg) (w_files w) ->
  build_sam2 env (config cfg) (checkpoint cfg) (device p) = Return m ->
  make_image_predictor env m = Return ip ->
  schedule <> [] ->
  let s := run c env schedule (two_callers w) in
  w_loads (world s) = S (w_loads w) /\
  inference_ready (w_predictor (world s)) /\
  ~ suspended s.
Proof.
  intros Hw Hm Hi Hc Hf Hb Hip Hne s. subst s.
  destruct schedule as [|who rest]; [contradiction|].
  destruct (@step_entered_cached w p cfg m ip Hw Hm Hi Hc Hf Hb Hip)
    as (w1 & E & El & Hr).
  assert (Hbuilt : model_built (w_predictor w1)).
  { destruct Hr as (p0 & m0 & ip0 & H1 & H2 & _). now exists p0, m0. }
  rewrite run_cons. destruct who; unfold resume, two_callers;
    cbn [world first_call second_call]; rewrite E.
  - destruct (@settled_run rest
                {| world := w1;
                   first_call := Replied (success "Model loaded successfully");
                   second_call := Entered |}) as [E1 E2]; simpl; eauto.
    rewrite E1. simpl. auto.
  - destruct (@settled_run rest
                {| world := w1;
                   first_call := Entered;
                   second_call := Replied (success "Model loaded successfully") |})
      as [E1 E2]; simpl; eauto.
    rewrite E1. simpl. auto.
Qed.

Lemma model_configs_tiny : model_configs "tiny" <> None.
Proof. discriminate. Qed.

(** X25.  A failed load can be made good: in an environment in which every
    step succeeds, [/load-model] called alone in any state without a built
    model (for a predictor of a known size) enters [load_model] once,
    replies ["Model loaded successfully"] and leaves the model ready,
    whether the checkpoint has to be downloaded or not. *)
Theorem load_succeeds_in_good_environment (w : World) :
  good_environment env ->
  unloaded w ->
  known_size (w_predictor w) ->
  exists w',
    load_model_endpoint c env w = (w', Replied (success "Model loaded successfully")) /\
    inference_ready (w_predictor w') /\
    w_loads w' = S (w_loads w).
Proof.
  intros (Hmk & Hi & Hd & Hb & Hip) Hu Hk.
  assert (Hobj : exists p, (match w_predictor w with
                            | Some p => Return p
                            | None => new_SAM2Predictor env
                            end) = Return p /\ model p = None /\
                           model_configs (model_size p) <> None).
  { destruct Hu as [E|(p & E & Hm)].
    - rewrite E. unfold new_SAM2Predictor. rewrite Hmk. eexists.
      split; [reflexivity|]. split; [reflexivity|]. apply model_configs_tiny.
    - rewrite E. exists p. repeat split; auto. }
  destruct Hobj as (p & Eo & Hm & Hc).
  destruct (model_configs (model_size p)) as [cfg|] eqn:Ec; [|contradiction].
  destruct (Hb (config cfg) (checkpoint cfg) (device p)) as (m & Em).
  destruct (Hip m) as (ip & Eip).
  unfold load_model_endpoint, step_task at 1. rewrite Eo, Hm.
  unfold load_model_enter, load_model_begin. cbn [w_files w_loads w_predictor].
  rewrite Hi, Ec. cbn [negb].
  destruct (existsb (String.eqb (checkpoint cfg)) (w_files w)).
  - unfold load_model_build, load_model_finish. rewrite Em, Eip.
    eexists. split; [reflexivity|]. simpl. split; [|reflexivity].
    eexists _, m, ip. repeat split.
  - simpl. unfold load_model_resume. rewrite Hd. cbn [w_predictor].
    unfold load_model_build, load_model_finish. rewrite Em, Eip.
    eexists. split; [reflexivity|]. simpl. split; [|reflexivity].
    eexists _, m, ip. repeat split.
Qed.

End LoadingFacts.

Section StartupFacts.
Context (env : LoadEnv).

Lemma load_model_finish_keeps_size (self self' : SAM2Predictor) (cfg : ModelConfig)
    (r : result unit) :
  load_model_finish env self cfg = (self', r) -> model_size self' = model_size self.
Proof.
  unfold load_model_finish. destruct (build_sam2 env _ _ _) as [m|e].
  - destruct (make_image_predictor env m); intros H; now injection H as <- _.
  - intros H. now injection H as <- _.
Qed.

(** X26.  [startup_event] never fails the start of the service and
    leaves a state the endpoints can work with: [load_model] has been
    entered at most once (exactly once if the predictor object could be
    constructed, which then exists, with the default size ["tiny"]); in an
    environment in which every step succeeds the model is ready; and when
    the [sam2] package is missing nothing is loaded at all. *)
Theorem startup_event_outcome :
  let w := startup_event env initial_world in
  (w_loads w <= 1)%nat /\
  (forall p, w_predictor w = Some p -> model_size p = "tiny") /\
  (mkdir_models_dir env = Return tt -> w_predictor w <> None /\ w_loads w = 1%nat) /\
  (good_environment env -> inference_ready (w_predictor w)) /\
  (sam2_importable env = false -> nothing_ready (w_predictor w)).
Proof.
  unfold startup_event, new_SAM2Predictor.
  destruct (mkdir_models_dir env) as [u|e0] eqn:Emk.
  2:{ simpl. split; [lia|]. split; [discriminate|]. split; [discriminate|].
      split; [|intros _; now left].
      intros (H & _). congruence. }
  unfold load_model, load_model_enter, load_model_begin.
  cbn [w_files w_loads w_predictor initial_world model_size].
  set (p := {| model_size := "tiny";
               device := if cuda_available env then "cuda" else "cpu";
               model := None; predictor := None |}).
  destruct (sam2_importable env) eqn:Ei; cbn [negb].
  2:{ simpl. split; [lia|]. split; [intros p0 H; now injection H as <-|].
      split; [intros _; split; [discriminate | reflexivity]|].
      split; [intros (_ & H & _); congruence|].
      intros _. right. exists p. repeat split. }
  destruct (model_configs "tiny") as [cfg|] eqn:Ecfg; [|discriminate Ecfg].
  cbn [existsb]. unfold load_model_resume.
  cbn [w_files w_loads w_predictor].
  destruct (download env (url cfg) (checkpoint cfg)) as [u'|e] eqn:Ed.
  2:{ simpl. split; [lia|]. split; [intros p0 H; now injection H as <-|].
      split; [intros _; split; [discriminate | reflexivity]|].
      split; [|intros H; discriminate].
      intros (_ & _ & Hd & _). rewrite Hd in Ed. discriminate. }
  unfold load_model_build.
  destruct (load_model_finish env p cfg) as [self' r] eqn:Ef.
  pose proof (load_model_finish_keeps_size _ _ Ef) as Hsize.
  cbn [fst w_loads w_predictor]. split; [lia|].
  split; [intros p0 H; injection H as <-; exact Hsize|].
  split; [intros _; split; [discriminate | reflexivity]|].
  split; [|intros H; discriminate].
  intros (_ & _ & _ & Hb & Hip). revert Ef. unfold load_model_finish.
  destruct (Hb (config cfg) (checkpoint cfg) (device p)) as (m & Em).
  rewrite Em.
  destruct (Hip m) as (ip & Eip). rewrite Eip.
  intros H. injection H as <- _. eexists _, m, ip. repeat split.
Qed.

End StartupFacts.

(* ===================================================================== *)
(** * The mock service                                                     *)
(* ===================================================================== *)

Section MockMasks.

Lemma count_in_slice (lo hi n : nat) :
  List.length (filter (Mock.in_slice lo hi) (seq 0 n)) = (Nat.min hi n - Nat.min lo n)%nat.
Proof.
  induction n as [|n IH]; [simpl; lia|].
  rewrite seq_S, filter_app, length_app, IH. simpl. unfold Mock.in_slice.
  destruct (Nat.leb_spec lo n), (Nat.ltb_spec n hi); simpl; lia.
Qed.

Lemma row_sum_map {A} (f : A -> bool) (l : list A) :
  Np.row_sum (map f l) = List.length (filter f l).
Proof.
  unfold Np.row_sum. induction l as [|a l IH]; simpl; [reflexivity|].
  destruct (f a); simpl; now rewrite IH.
Qed.

Lemma row_sum_gated {A} (r : bool) (f : A -> bool) (l : list A) :
  Np.row_sum (map (fun x => r && f x) l) = if r then List.length (filter f l) else 0%nat.
Proof.
  destruct r; simpl.
  - apply row_sum_map.
  - unfold Np.row_sum. induction l; simpl; auto.
Qed.

(** The number of pixels set in a rectangle: rows times columns. *)
Lemma sum_rectangle {A B} (R : A -> bool) (C : B -> bool) (ys : list A) (xs : list B) :
  Np.sum (map (fun y => map (fun x => R y && C x) xs) ys) =
  (List.length (filter R ys) * List.length (filter C xs))%nat.
Proof.
  induction ys as [|y ys IH]; simpl; [reflexivity|].
  rewrite IH, row_sum_gated. destruct (R y); simpl; lia.
Qed.

Lemma sum_all_false {A B} (f : A -> B -> bool) (ys : list A) (xs : list B) :
  (forall y x, f y x = false) ->
  Np.sum (map (fun y => map (f y) xs) ys) = 0%nat.
Proof.
  intros H.
  assert (Hrow : forall y, Np.row_sum (map (f y) xs) = 0%nat).
  { intros y. rewrite row_sum_map.
    induction xs as [|x xs IHx]; simpl; [reflexivity|]. now rewrite H. }
  induction ys as [|y ys IH]; simpl; [reflexivity|].
  now rewrite IH, Hrow.
Qed.

Lemma row_sum_pos {A} (f : A -> bool) (l : list A) (x : A) :
  In x l -> f x = true -> (0 < Np.row_sum (map f l))%nat.
Proof.
  intros Hin Hx. rewrite row_sum_map.
  assert (Hf : In x (filter f l)) by (apply filter_In; auto).
  destruct (filter f l); [destruct Hf | simpl; lia].
Qed.

Lemma sum_pos {A B} (f : A -> B -> bool) (ys : list A) (xs : list B) (y : A) (x : B) :
  In y ys -> In x xs -> f y x = true ->
  (0 < Np.sum (map (fun y => map (f y) xs) ys))%nat.
Proof.
  intros Hy Hx Hf. induction ys as [|y0 ys IH]; [destruct Hy|].
  simpl. destruct Hy as [->|Hy].
  - pose proof (row_sum_pos (f y) xs x Hx Hf). lia.
  - specialize (IH Hy). lia.
Qed.

Lemma row_lengths_grid {A B} (f : A -> B -> bool) (ys : list A) (xs : list B) :
  Np.row_lengths (map (fun y => map (f y) xs) ys) =
  repeat (List.length xs) (List.length ys).
Proof.
  unfold Np.row_lengths. induction ys as [|y ys IH]; simpl; [reflexivity|].
  now rewrite IH, length_map.
Qed.

Lemma zip_with_map {A B C D} (f : B -> C -> D) (g : A -> B) (h : A -> C) (l : list A) :
  Np.zip_with f (map g l) (map h l) = map (fun a => f (g a) (h a)) l.
Proof. induction l as [|a l IH]; simpl; [reflexivity|]. now rewrite IH. Qed.

Lemma half_le (n : nat) : (n / 4 <= n / 2 /\ n / 2 <= 3 * n / 4 /\ 3 * n / 4 <= n)%nat.
Proof.
  pose proof (Nat.div_mod_eq n 4). pose proof (Nat.mod_upper_bound n 4).
  pose proof (Nat.div_mod_eq n 2). pose proof (Nat.mod_upper_bound n 2).
  pose proof (Nat.div_mod_eq (3 * n) 4). pose proof (Nat.mod_upper_bound (3 * n) 4).
  lia.
Qed.

(** X27.  The masks of the mock always have the shape of the image.  The
    two rectangles (ids 0 and 2) cover the second quarter and the third
    quarter of the rows and columns, so their areas are the products of
    the quarter lengths; the disc (id 1) is never empty on a non-empty
    image; any other id gives an empty mask. *)
Theorem create_mock_mask_shape_and_areas (height width : nat) :
  let mask := Mock.create_mock_mask (height, width) in
  (forall mask_id, Np.row_lengths (mask mask_id) = repeat width height) /\
  Np.sum (mask 0%nat) = ((height / 2 - height / 4) * (width / 2 - width / 4))%nat /\
  Np.sum (mask 2%nat) =
    ((3 * height / 4 - height / 2) * (3 * width / 4 - width / 2))%nat /\
  ((0 < height)%nat -> (0 < width)%nat -> (0 < Np.sum (mask 1%nat))%nat) /\
  (forall mask_id, (3 <= mask_id)%nat -> Np.sum (mask mask_id) = 0%nat).
Proof.
  cbv zeta. unfold Mock.create_mock_mask.
  pose proof (half_le height) as (H1 & H2 & H3).
  pose proof (half_le width) as (W1 & W2 & W3).
  split; [|split; [|split; [|split]]].
  - intros mask_id. now rewrite row_lengths_grid, !length_seq.
  - cbn [Mock.mock_pixel]. rewrite sum_rectangle, !count_in_slice.
    f_equal; lia.
  - cbn [Mock.mock_pixel]. rewrite sum_rectangle, !count_in_slice.
    f_equal; lia.
  - intros Hh Hw.
    apply sum_pos with (y := (height / 2)%nat) (x := (width / 2)%nat).
    + apply in_seq. split; [lia|]. rewrite Nat.add_0_l. apply Nat.div_lt; lia.
    + apply in_seq. split; [lia|]. rewrite Nat.add_0_l. apply Nat.div_lt; lia.
    + cbn [Mock.mock_pixel]. apply Z.leb_le. rewrite !Z.sub_diag.
      change (0 ^ 2 + 0 ^ 2)%Z with 0%Z. apply Z.pow_nonneg. lia.
  - intros [|[|[|k]]] Hk; try lia.
    apply sum_all_false. reflexivity.
Qed.

(** X28.  The two rectangles of the mock never share a pixel, whatever the
    image size: their intersection is empty and the overlap
    [_calculate_mask_iou] computes for them is 0, on arrays of one and
    the same shape. *)
Theorem mock_rectangles_share_no_pixel (height width : nat) :
  let first := Mock.create_mock_mask (height, width) 0 in
  let third := Mock.create_mock_mask (height, width) 2 in
  Np.same_shape first third = true /\
  Np.sum (Np.logical_and first third) = 0%nat /\
  _calculate_mask_iou first third == 0.
Proof.
  cbv zeta.
  assert (Hs : Np.same_shape (Mock.create_mock_mask (height, width) 0)
                             (Mock.create_mock_mask (height, width) 2) = true).
  { unfold Np.same_shape, Mock.create_mock_mask.
    rewrite !row_lengths_grid. now destruct (list_eq_dec _ _ _). }
  assert (Hi : Np.sum (Np.logical_and (Mock.create_mock_mask (height, width) 0)
                                      (Mock.create_mock_mask (height, width) 2)) = 0%nat).
  { unfold Np.logical_and, Mock.create_mock_mask. rewrite zip_with_map.
    erewrite map_ext; [|intros y; apply zip_with_map].
    apply (sum_all_false
             (fun y x => Mock.mock_pixel height width 0 y x &&
                         Mock.mock_pixel height width 2 y x)).
    intros y x. cbn [Mock.mock_pixel]. unfold Mock.in_slice.
    destruct (Nat.ltb_spec y (height / 2)), (Nat.leb_spec (height / 2) y);
      try lia; rewrite ?andb_false_r, ?andb_false_l; reflexivity. }
  split; [exact Hs|]. split; [exact Hi|].
  unfold _calculate_mask_iou. rewrite Hs, Hi. cbv zeta.
  destruct (Nat.eqb _ 0); reflexivity.
Qed.

End MockMasks.

Section MockHandlers.
Context (c : Collaborators).

Lemma mock_masks_ids (shape : nat * nat) (n : nat) :
  map entry_id (Mock.mock_masks c shape n) = seq 0 n.
Proof.
  unfold Mock.mock_masks. rewrite map_map. cbn [entry_id]. apply map_id.
Qed.

Lemma mock_masks_area (shape : nat * nat) (n : nat) (e : MaskEntry) :
  In e (Mock.mock_masks c shape n) ->
  entry_area e = Z.of_nat (Np.sum (Mock.create_mock_mask shape (entry_id e))) /\
  entry_mask e = encode_mask_to_base64 c (Mock.create_mock_mask shape (entry_id e)).
Proof.
  unfold Mock.mock_masks. intros H. apply in_map_iff in H as (i & <- & _).
  split; reflexivity.
Qed.

(** X29.  The mock's [/segment] and [/segment-url] answer 200 exactly when
    the image decodes, and 500 otherwise; they never answer 503 and never
    look at the prompts.  A success answer has three masks in
    [everything] mode and one in any other mode (known or not), with the
    ids 0, 1, 2 in order, each entry carrying the area and the encoding of
    the mock mask of its id for the image's shape. *)
Theorem mock_segment_answers (file : bytes) (image_url mode : string)
    (points boxes : option string) :
  let num_masks := if String.eqb mode "everything" then 3%nat else 1%nat in
  (forall img, image_open c file = Return img ->
     exists body,
       Mock.segment_image c file mode points boxes = JSON200 body /\
       Mock.body_mock body = true /\
       body_success (Mock.mock_body body) = true /\
       body_mode (Mock.mock_body body) = mode /\
       body_image_shape (Mock.mock_body body) = image_shape img /\
       body_num_masks (Mock.mock_body body) = num_masks /\
       map entry_id (body_masks (Mock.mock_body body)) = seq 0 num_masks /\
       forall e, In e (body_masks (Mock.mock_body body)) ->
         entry_area e =
           Z.of_nat (Np.sum (Mock.create_mock_mask (image_shape img) (entry_id e))) /\
         entry_mask e =
           encode_mask_to_base64 c (Mock.create_mock_mask (image_shape img) (entry_id e))) /\
  (forall e, image_open c file = Raise e ->
     Mock.segment_image c file mode points boxes =
       HTTPError 500 (http_exception_str c 400 "Invalid image data")) /\
  Mock.segment_image_url c image_url mode points boxes =
    match requests_get c image_url with
    | Return content => Mock.segment_image c content mode points boxes
    | Raise e => HTTPError 500 (str c e)
    end /\
  status_of (Mock.segment_image c file mode points boxes) <> 503%Z /\
  status_of (Mock.segment_image_url c image_url mode points boxes) <> 503%Z.
Proof.
  cbv zeta.
  assert (Hst : forall d, status_of (Mock.segment_bytes c d mode) <> 503%Z).
  { intros d. unfold Mock.segment_bytes.
    destruct (match d with Return data => process_image_data c data | Raise e => Raise e end);
      discriminate. }
  split; [|split; [|split; [|split]]].
  - intros img Hi. unfold Mock.segment_image, Mock.segment_bytes, process_image_data.
    rewrite Hi. eexists. split; [reflexivity|].
    cbn [Mock.body_mock Mock.mock_body body_success body_mode body_image_shape
         body_num_masks body_masks].
    repeat split.
    + unfold Mock.mock_masks. now rewrite length_map, length_seq.
    + apply mock_masks_ids.
    + now apply mock_masks_area in H.
    + now apply mock_masks_area in H.
  - intros e He. unfold Mock.segment_image, Mock.segment_bytes, process_image_data.
    now rewrite He.
  - unfold Mock.segment_image_url, Mock.segment_image, Mock.segment_bytes.
    destruct (requests_get c image_url); reflexivity.
  - apply Hst.
  - apply Hst.
Qed.

(** X30.  The mock is more permissive than the service it stands in for.
    A request with an invalid mode/prompt combination that the service
    answers with status 500 gets status 200 and one mask from the mock;
    and where the service answers 503 because no predictor object exists,
    the mock answers 200 as well. *)
Theorem mock_accepts_what_the_service_rejects (p : SAM2Predictor) (file : bytes)
    (mode : string) (points boxes : option string) (img : image)
    (pts bxs : option json) (t : list event) :
  image_open c file = Return img ->
  parse_field c points = Return pts ->
  parse_field c boxes = Return bxs ->
  invalid_combination mode pts ->
  (exists detail,
     segment_image c (Some p) file mode points boxes t = (Return (HTTPError 500 detail), t)) /\
  (exists detail,
     segment_image c None file mode points boxes t = (Return (HTTPError 503 detail), t)) /\
  exists body,
    Mock.segment_image c file mode points boxes = JSON200 body /\
    body_num_masks (Mock.mock_body body) = 1%nat.
Proof.
  intros Hi Hp Hb Hinv. split; [|split].
  - eexists. unfold segment_image, try_except, bind, lift, process_image_data.
    rewrite Hi. unfold segment_decoded, bind, lift. rewrite Hp, Hb.
    rewrite (@run_segmentation_invalid c p img mode pts bxs t Hinv). reflexivity.
  - eexists. reflexivity.
  - unfold Mock.segment_image, Mock.segment_bytes, process_image_data. rewrite Hi.
    eexists. split; [reflexivity|]. cbn [Mock.mock_body body_num_masks].
    unfold Mock.mock_masks. rewrite length_map, length_seq.
    destruct Hinv as [[-> _]|(Hne & _)]; [reflexivity|].
    destruct (String.eqb_spec mode "everything"); [contradiction | reflexivity].
Qed.

End MockHandlers.

(* ===================================================================== *)
(** * Further runs                                                         *)
(* ===================================================================== *)

Section FurtherRuns.
Import Demo.
Import Cases.

(** Witness for C2: the four candidates of the stand-in model, all 2 by 2. *)
Lemma everything_result_pairwise_bounded_witness :
  segment_everything c loaded img [] =
    (Return (everything_postprocess candidates), [EvGenerate img]) /\
  (forall a b, In a candidates -> In b candidates ->
     Np.same_shape (segmentation a) (segmentation b) = true) /\
  ((List.length (masks (everything_postprocess candidates)) <= 25)%nat /\
   forall i j mi mj, i <> j ->
     nth_error (masks (everything_postprocess candidates)) i = Some mi ->
     nth_error (masks (everything_postprocess candidates)) j = Some mj ->
     (10 * Np.sum (Np.logical_and mi mj) <= 6 * Np.sum (Np.logical_or mi mj))%nat).
Proof.
  assert (Hs : forall a b, In a candidates -> In b candidates ->
                 Np.same_shape (segmentation a) (segmentation b) = true).
  { intros a b [<-|[<-|[<-|[<-|[]]]]] [<-|[<-|[<-|[<-|[]]]]]; reflexivity. }
  split; [reflexivity|]. split; [exact Hs|].
  apply (@everything_result_pairwise_bounded c loaded img [] [EvGenerate img]).
  - reflexivity.
  - intros raw a b H. injection H as <-. apply Hs.
Defined.

(** Witness for X1. *)
Lemma mask_iou_between_0_and_1_witness :
  Np.same_shape top_row top_left = true /\
  0 <= _calculate_mask_iou top_row top_left /\
  _calculate_mask_iou top_row top_left <= 1.
Proof.
  split; [reflexivity|].
  apply (@mask_iou_between_0_and_1 top_row top_left). reflexivity.
Defined.





(** Witness for X12: the model fails on the second of two boxes. *)
Lemma segment_with_boxes_stops_at_first_failure_witness :
  let first := JList [JNum 10; JNum 10; JNum 20; JNum 20]%Z in
  let second := JList [JNum 30; JNum 30; JNum 40; JNum 40]%Z in
  predictor loaded <> None /\
  sam2_set_image c_failing_model img = Return tt /\
  sam2_predict c_failing_model img (box_args first) = Return ([top_left], [0.95]) /\
  sam2_predict c_failing_model img (box_args second) =
    Raise (RuntimeError "CUDA out of memory") /\
  segment_with_boxes c_failing_model loaded img (JList ([first] ++ second :: [])) [] =
    (Raise (RuntimeError "CUDA out of memory"),
     [] ++ EvSetImage img :: box_events ([first] ++ [second])).
Proof.
  cbv zeta.
  split; [discriminate|]. split; [reflexivity|]. split; [reflexivity|].
  split; [reflexivity|].
  apply (@segment_with_boxes_stops_at_first_failure c_failing_model loaded img
           [JList [JNum 10; JNum 10; JNum 20; JNum 20]%Z]
           (JList [JNum 30; JNum 30; JNum 40; JNum 40]%Z) []
           (RuntimeError "CUDA out of memory") []).
  - discriminate.
  - reflexivity.
  - intros b' [<-|[]]. eexists. reflexivity.
  - reflexivity.
Defined.

(** Witness for X14. *)
Lemma segment_success_body_is_consistent_witness :
  exists body,
    segment_image c (Some loaded) upload "everything" None None [] =
      (Return (JSON200 body), [EvGenerate img]) /\
    body_success body = true /\
    body_mode body = "everything" /\
    body_num_masks body = List.length (body_masks body) /\
    (exists img0, image_open c upload = Return img0 /\
                  body_image_shape body = image_shape img0) /\
    (forall i e, nth_error (body_masks body) i = Some e ->
       entry_id e = i /\ (0 <= entry_area e)%Z).
Proof.
  eexists. split; [reflexivity|].
  apply (@segment_success_body_is_consistent c (Some loaded) upload "everything"
           None None [] [EvGenerate img]).
  reflexivity.
Defined.

(** Witness for X16. *)
Lemma unparsable_prompt_fails_every_mode_witness :
  image_open c upload = Return img /\
  "oops" <> "" /\
  json_loads c "oops" = Raise (OtherError "Expecting value") /\
  segment_image c (Some loaded) upload "everything" (Some "oops") None [] =
    (Return (HTTPError 500 "Expecting value"), []) /\
  segment_image c (Some loaded) upload "everything" None (Some "oops") [] =
    (Return (HTTPError 500 "Expecting value"), []).
Proof.
  split; [reflexivity|]. split; [discriminate|]. split; [reflexivity|].
  destruct (@unparsable_prompt_fails_every_mode c loaded upload "everything" "oops"
              None (OtherError "Expecting value") img [])
    as (H1 & H2); [reflexivity | discriminate | reflexivity |].
  split; [exact H1|]. exact (H2 None eq_refl).
Defined.

(** Witness for X17. *)
Lemma prompts_of_other_modes_are_ignored_witness :
  parse_field c (Some "[[50,50]]") = Return (Some (JList [JList [JNum 50; JNum 50]]))%Z /\
  parse_field c (Some "[[10,10,20,20],[30,30,40,40]]") = Return (Some (JList two_boxes)) /\
  segment_image c (Some loaded) upload "everything" (Some "[[50,50]]")
      (Some "[[10,10,20,20],[30,30,40,40]]") [] =
    segment_image c (Some loaded) upload "everything" None None [] /\
  segment_image c (Some loaded) upload "points" (Some "[[50,50]]")
      (Some "[[10,10,20,20],[30,30,40,40]]") [] =
    segment_image c (Some loaded) upload "points" (Some "[[50,50]]") None [].
Proof.
  split; [reflexivity|]. split; [reflexivity|].
  destruct (@prompts_of_other_modes_are_ignored c (Some loaded) upload
              (Some "[[50,50]]") (Some "[[10,10,20,20],[30,30,40,40]]")
              (Some (JList [JList [JNum 50; JNum 50]]))%Z (Some (JList two_boxes)) []
              eq_refl eq_refl)
    as (H1 & H2).
  split; [exact H1 | exact (H2 eq_refl)].
Defined.

(** Witness for X18: one point, three masks from the model. *)
Lemma points_request_passes_model_answer_through_witness :
  let pts := [JList [JNum 50; JNum 50]]%Z in
  let args := {| point_coords := Some (JList pts);
                 point_labels := Some [1%Z];
                 box := None;
                 multimask_output := true |} in
  sam2_predict c img args = Return ([top_row; top_left; bottom_row], [0.9; 0.8]) /\
  exists body,
    segment_image c (Some loaded) upload "points" (Some "[[50,50]]") None [] =
      (Return (JSON200 body), [] ++ [EvSetImage img; EvPredict args]) /\
    body_num_masks body = 3%nat.
Proof.
  cbv zeta. split; [reflexivity|].
  destruct (@points_request_passes_model_answer_through c loaded upload
              (Some "[[50,50]]") None None img [JList [JNum 50; JNum 50]]%Z
              [top_row; top_left; bottom_row] [0.9; 0.8] [])
    as (body & H1 & H2 & _);
    [discriminate | reflexivity | reflexivity | discriminate | reflexivity
    | reflexivity | reflexivity |].
  exists body. split; [exact H1 | exact H2].
Defined.

(** Witness for X19: no mask can be encoded, the answer is still 200. *)
Lemma unencodable_mask_gets_empty_payload_witness :
  run_segmentation c_failing_png loaded img "everything" None None [] =
    (Return (everything_postprocess candidates), [EvGenerate img]) /\
  png_save c_failing_png (mask_uint8 top_row) = Raise (OtherError "encoder error") /\
  exists body,
    segment_image c_failing_png (Some loaded) upload "everything" None None [] =
      (Return (JSON200 body), [EvGenerate img]) /\
    List.length (body_masks body) = 3%nat /\
    exists entry, nth_error (body_masks body) 0 = Some entry /\
                  entry_id entry = 0%nat /\
                  entry_mask entry = "" /\
                  entry_area entry = 2%Z.
Proof.
  split; [reflexivity|]. split; [reflexivity|].
  destruct (@unencodable_mask_gets_empty_payload c_failing_png loaded upload
              "everything" None None img None None [] [EvGenerate img]
              (everything_postprocess candidates) eq_refl eq_refl eq_refl eq_refl)
    as (body & H1 & H2 & H3).
  exists body. split; [exact H1|]. split; [exact H2|].
  exact (H3 0%nat top_row (OtherError "encoder error") eq_refl eq_refl).
Defined.

(** Witness for X20. *)
Lemma load_model_endpoint_is_idempotent_when_built_witness :
  model_built (w_predictor loaded_world) /\
  load_model_endpoint c env loaded_world =
    (loaded_world, Replied (success "Model already loaded")) /\
  Nat.iter 3 (fun w0 => fst (load_model_endpoint c env w0)) loaded_world = loaded_world.
Proof.
  assert (H : model_built (w_predictor loaded_world))
    by (eexists _, _; split; reflexivity).
  split; [exact H|].
  exact (@load_model_endpoint_is_idempotent_when_built c env loaded_world 3 H).
Defined.

(** Witness for X21, where the load succeeds, and where it fails. *)
Lemma load_reply_matches_readiness_witness :
  nothing_ready (w_predictor constructed_world) /\
  (exists w' r,
     load_model_endpoint c env constructed_world = (w', Replied r) /\
     (reply_status r = "success" \/ reply_status r = "error") /\
     (reply_status r = "success" <-> inference_ready (w_predictor w')) /\
     (w_loads w' <= S (w_loads constructed_world))%nat) /\
  load_model_endpoint c env_without_sam2 constructed_world =
    ({| w_predictor := Some constructed; w_files := []; w_loads := 1 |},
     Replied {| reply_status := "error"; reply_message := "SAM 2 package not found" |}).
Proof.
  assert (H : nothing_ready (w_predictor constructed_world))
    by (right; exists constructed; repeat split).
  split; [exact H|]. split; [|reflexivity].
  exact (@load_reply_matches_readiness c env constructed_world H).
Defined.

(** Witness for X22. *)
Lemma readiness_is_never_lost_witness :
  inference_ready (w_predictor (world (two_callers loaded_world))) /\
  inference_ready
    (w_predictor (world (run c env_without_sam2 [First; Second; First]
                           (two_callers loaded_world)))).
Proof.
  assert (H : inference_ready (w_predictor (world (two_callers loaded_world))))
    by (eexists _, _, _; repeat split).
  split; [exact H|].
  exact (@readiness_is_never_lost c env_without_sam2 (two_callers loaded_world)
           [First; Second; First] H).
Defined.

(** Witness for X24: the schedule that makes two calls load twice when the
    checkpoint has to be downloaded loads once when it is on disk. *)
Lemma cached_checkpoint_loads_exactly_once_witness :
  let s := run c env [First; Second; First; Second] (two_callers cached_world) in
  model_configs (model_size constructed) = Some tiny /\
  In (checkpoint tiny) (w_files cached_world) /\
  w_loads (world s) = 1%nat /\
  inference_ready (w_predictor (world s)) /\
  ~ suspended s.
Proof.
  cbv zeta. split; [reflexivity|]. split; [left; reflexivity|].
  apply (@cached_checkpoint_loads_exactly_once c env cached_world constructed tiny
           (Sam2Model "sam2_hiera_t.yaml" "sam2_hiera_tiny.pt" "cpu")
           (SAM2ImagePredictor (Sam2Model "sam2_hiera_t.yaml" "sam2_hiera_tiny.pt" "cpu"))
           [First; Second; First; Second]);
    try reflexivity; [left; reflexivity | discriminate].
Defined.

(** Witness for X25: a load after a start-up without the package, once the
    package is installed. *)
Lemma load_succeeds_in_good_environment_witness :
  good_environment env /\
  unloaded (startup_event env_without_sam2 initial_world) /\
  exists w',
    load_model_endpoint c env (startup_event env_without_sam2 initial_world) =
      (w', Replied (success "Model loaded successfully")) /\
    inference_ready (w_predictor w') /\
    w_loads w' = 2%nat.
Proof.
  assert (Hg : good_environment env).
  { split; [reflexivity|]. split; [reflexivity|]. split; [reflexivity|].
    split; intros; eexists; reflexivity. }
  assert (Hu : unloaded (startup_event env_without_sam2 initial_world))
    by (right; exists constructed; split; reflexivity).
  split; [exact Hg|]. split; [exact Hu|].
  apply (@load_succeeds_in_good_environment c env
           (startup_event env_without_sam2 initial_world) Hg Hu).
  intros p H. injection H as <-. discriminate.
Defined.

(** Witness for X30. *)
Lemma mock_accepts_what_the_service_rejects_witness :
  invalid_combination "polygon" None /\
  segment_image c (Some loaded) upload "polygon" None None [] =
    (Return (HTTPError 500 "Invalid segmentation mode: polygon"), []) /\
  (exists detail,
     segment_image c None upload "polygon" None None [] =
       (Return (HTTPError 503 detail), [])) /\
  exists body,
    Mock.segment_image c upload "polygon" None None = JSON200 body /\
    body_num_masks (Mock.mock_body body) = 1%nat.
Proof.
  assert (H : invalid_combination "polygon" None)
    by (right; repeat split; discriminate).
  split; [exact H|]. split; [reflexivity|].
  exact (proj2 (@mock_accepts_what_the_service_rejects c loaded upload "polygon"
                  None None img None None [] eq_refl eq_refl eq_refl H)).
Defined.

End FurtherRuns.
